(** * RideCamera: ride progression and camera orientation

    A shallow embedding of [client/src/components/game/RideCamera.tsx].

    JavaScript numbers are modelled as real numbers: every statement below is
    about exact arithmetic on finite values, and says nothing about IEEE-754
    rounding, infinities or NaN.  [-Infinity], the one non-finite constant the
    source writes, is the [None] of an [option R].

    The three.js objects the component uses ([Vector3], [CatmullRomCurve3])
    are external: vectors are records with three.js' arithmetic written out,
    a curve is the record of the three methods the component calls. *)

From Stdlib Require Import Reals Lra Lia List Bool ZArith.
Import ListNotations.

Open Scope R_scope.

(** ** THREE.Vector3 *)

Module Vector3.

Record t : Type := mk { x : R; y : R; z : R }.

Definition zero : t := mk 0 0 0.

Definition add (a b : t) : t := mk (x a + x b) (y a + y b) (z a + z b).

Definition multiplyScalar (a : t) (s : R) : t := mk (x a * s) (y a * s) (z a * s).

Definition dot (a b : t) : R := x a * x b + y a * y b + z a * z b.

Definition crossVectors (a b : t) : t :=
  mk (y a * z b - z a * y b) (z a * x b - x a * z b) (x a * y b - y a * x b).

Definition lengthSq (a : t) : R := x a * x a + y a * y a + z a * z a.

Definition length (a : t) : R := sqrt (lengthSq a).

(** [divideScalar (length () || 1)]: a zero length divides by 1. *)
Definition normalize (a : t) : t :=
  let l := length a in
  let d := if Req_dec_T l 0 then 1 else l in
  mk (x a / d) (y a / d) (z a / d).

(** [this.x += (v.x - this.x) * alpha], and so for y and z. *)
Definition lerp (a v : t) (alpha : R) : t :=
  mk (x a + (x v - x a) * alpha)
     (y a + (y v - y a) * alpha)
     (z a + (z v - z a) * alpha).

Definition distanceTo (a v : t) : R :=
  sqrt ((x a - x v) * (x a - x v) + (y a - y v) * (y a - y v)
        + (z a - z v) * (z a - z v)).

(** [applyQuaternion (setFromAxisAngle (axis, angle))]: the quaternion is
    [(axis * sin (angle / 2), cos (angle / 2))]; the vector is rotated as
    [v + w * t + cross (q, t)] with [t = 2 * cross (q, v)]. *)
Definition applyAxisAngle (v axis : t) (angle : R) : t :=
  let halfAngle := angle / 2 in
  let s := sin halfAngle in
  let qx := x axis * s in
  let qy := y axis * s in
  let qz := z axis * s in
  let qw := cos halfAngle in
  let tx := 2 * (qy * z v - qz * y v) in
  let ty := 2 * (qz * x v - qx * z v) in
  let tz := 2 * (qx * y v - qy * x v) in
  mk (x v + qw * tx + qy * tz - qz * ty)
     (y v + qw * ty + qz * tx - qx * tz)
     (z v + qw * tz + qx * ty - qy * tx).

End Vector3.

(** ** THREE.CatmullRomCurve3, as far as the component calls it *)

Record Curve : Type := mkCurve {
  getPoint : R -> Vector3.t;
  getTangent : R -> Vector3.t;
  getLength : R
}.

(** ** JavaScript's [%] on numbers: the remainder of the truncated division *)

Definition truncate (a : R) : Z :=
  if Rle_dec 0 a then Int_part a else (- Int_part (- a))%Z.

Definition js_rem (a b : R) : R := a - b * IZR (truncate (a / b)).

Example js_rem_ex1 : js_rem 1.25 1 = 0.25.
Proof.
  unfold js_rem, truncate. destruct (Rle_dec 0 (1.25 / 1)) as [_|H]; [|exfalso; lra].
  replace (1.25 / 1) with (1 + 0.25) by lra.
  assert (Int_part (1 + 0.25) = 1%Z) as ->.
  { symmetry. apply Int_part_spec. simpl. lra. }
  simpl. lra.
Qed.

(** Comparisons of numbers as the booleans the source branches on. *)

Definition ltb (a b : R) : bool := if Rlt_dec a b then true else false.
Definition gtb (a b : R) : bool := ltb b a.
Definition geb (a b : R) : bool := if Rge_dec a b then true else false.

Lemma ltb_true (a b : R) : ltb a b = true <-> a < b.
Proof. unfold ltb. destruct (Rlt_dec a b); split; intros; try easy; lra. Qed.

Lemma ltb_false (a b : R) : ltb a b = false <-> b <= a.
Proof. unfold ltb. destruct (Rlt_dec a b); split; intros; try easy; lra. Qed.

Lemma gtb_true (a b : R) : gtb a b = true <-> a > b.
Proof. unfold gtb. rewrite ltb_true. lra. Qed.

Lemma gtb_false (a b : R) : gtb a b = false <-> a <= b.
Proof. unfold gtb. rewrite ltb_false. lra. Qed.

Lemma geb_true (a b : R) : geb a b = true <-> b <= a.
Proof. unfold geb. destruct (Rge_dec a b); split; intros; try easy; lra. Qed.

Lemma geb_false (a b : R) : geb a b = false <-> a < b.
Proof. unfold geb. destruct (Rge_dec a b); split; intros; try easy; lra. Qed.

(** On a dividend that is not negative, [a % 1] is the fractional part of [a]. *)
Lemma js_rem_1_frac (a : R) : 0 <= a -> js_rem a 1 = frac_part a.
Proof.
  intros Ha. unfold js_rem, truncate.
  replace (a / 1) with a by lra.
  destruct (Rle_dec 0 a) as [_|H]; [|contradiction].
  unfold frac_part. lra.
Qed.

Lemma js_rem_1_range (a : R) : 0 <= a -> 0 <= js_rem a 1 < 1.
Proof.
  intros Ha. rewrite js_rem_1_frac by assumption.
  destruct (base_fp a). lra.
Qed.

(** ** The component *)

Section RideCamera.

(** The store's track points and the two helpers imported from [./Track]
    are outside this component. *)
Variable TrackPoint : Type.
Variable getTrackCurve : list TrackPoint -> bool -> option Curve.
Variable getTrackTiltAtProgress : list TrackPoint -> R -> bool -> R.

(** What [useRollerCoaster ()] hands to one render of the component. *)
Record Store : Type := mkStore {
  trackPoints : list TrackPoint;
  isRiding : bool;
  rideProgress : R;
  rideSpeed : R;
  isLooped : bool;
  hasChainLift : bool
}.

(** The store's two actions the component invokes. *)
Inductive StoreCall : Type :=
| SetRideProgress (p : R)
| StopRide.

(** The component's [useRef]s. *)
Record Refs : Type := mkRefs {
  curveRef : option Curve;
  previousCameraPos : Vector3.t;
  previousLookAt : Vector3.t;
  maxHeightReached : R
}.

(** The three.js camera: its position and the point it was last turned to. *)
Record Camera : Type := mkCamera {
  position : Vector3.t;
  lookedAt : Vector3.t
}.

(** Everything a frame can change: the refs, the camera, and the store
    actions invoked so far (latest last). *)
Record World : Type := mkWorld {
  refs : Refs;
  camera : Camera;
  calls : list StoreCall
}.

Definition setMaxHeightReached (h : R) (w : World) : World :=
  mkWorld (mkRefs (curveRef (refs w)) (previousCameraPos (refs w))
                  (previousLookAt (refs w)) h)
          (camera w) (calls w).

Definition call (c : StoreCall) (w : World) : World :=
  mkWorld (refs w) (camera w) (calls w ++ [c]).

(** *** firstPeakT (lines 16-45) *)

(** The loop's variables; [maxHeight = None] is [-Infinity]. *)
Record Scan : Type := mkScan {
  maxHeight : option R;
  peakT : R;
  foundClimb : bool
}.

Definition aboveMax (h : R) (m : option R) : bool :=
  match m with
  | None => true
  | Some m' => gtb h m'
  end.

(** One pass through the loop body at [t]; the boolean is [break]. *)
Definition scanBody (curve : Curve) (t : R) (s : Scan) : Scan * bool :=
  let point := getPoint curve t in
  let tangent := getTangent curve t in
  let s1 :=
    if gtb (Vector3.y tangent) 0.1
    then mkScan (maxHeight s) (peakT s) true
    else s in
  let s2 :=
    if foundClimb s1 && aboveMax (Vector3.y point) (maxHeight s1)
    then mkScan (Some (Vector3.y point)) t (foundClimb s1)
    else s1 in
  (s2, foundClimb s2 && ltb (Vector3.y tangent) (-0.1) && gtb t (peakT s2)).

(** [for (let t = ...; t <= 0.5; t += 0.01)], [None] when the fuel runs out. *)
Fixpoint scanLoop (fuel : nat) (curve : Curve) (t : R) (s : Scan) : option Scan :=
  match fuel with
  | O => None
  | S fuel' =>
      if Rle_dec t 0.5 then
        let (s', stop) := scanBody curve t s in
        if stop then Some s' else scanLoop fuel' curve (t + 0.01) s'
      else Some s
  end.

Definition scanStart : Scan := mkScan None 0 false.

Definition firstPeakT_fuel (fuel : nat) (st : Store) : option R :=
  if (List.length (trackPoints st) <? 2)%nat then Some 0
  else
    match getTrackCurve (trackPoints st) (isLooped st) with
    | None => Some 0
    | Some curve =>
        match scanLoop fuel curve 0 scanStart with
        | None => None
        | Some s => Some (if gtb (peakT s) 0 then peakT s else 0.2)
        end
    end.

(** 52 rounds are enough: 51 samples and the failing test at the end. *)
Definition firstPeakT (st : Store) : option R := firstPeakT_fuel 52 st.

(** The values [t] takes in the loop (in exact arithmetic the [k]-th one is
    [k * 0.01]), and what the loop reads at them. *)

Definition sample (k : nat) : R := INR k * 0.01.

Definition height (curve : Curve) (k : nat) : R :=
  Vector3.y (getPoint curve (sample k)).

Definition climbs (curve : Curve) (k : nat) : Prop :=
  Vector3.y (getTangent curve (sample k)) > 0.1.

Definition climbedBy (curve : Curve) (k : nat) : Prop :=
  exists i : nat, (i <= k)%nat /\ climbs curve i.

(** What the loop variables hold when [k] samples have been read: nothing
    before the first climbing sample; from then on the first highest sample
    read since. *)
Definition scanned (curve : Curve) (k : nat) (s : Scan) : Prop :=
  match maxHeight s with
  | None =>
      foundClimb s = false /\ peakT s = 0 /\
      forall i : nat, (i < k)%nat -> ~ climbs curve i
  | Some h =>
      foundClimb s = true /\
      exists p : nat,
        (p < k)%nat /\ peakT s = sample p /\ h = height curve p /\
        climbedBy curve p /\
        (forall j : nat, (j < k)%nat -> climbedBy curve j ->
                         height curve j <= height curve p) /\
        (forall j : nat, (j < p)%nat -> climbedBy curve j ->
                         height curve j < height curve p)
  end.



(** *** The two effects (lines 47-56) *)

Definition curveEffect (st : Store) (w : World) : World :=
  mkWorld (mkRefs (getTrackCurve (trackPoints st) (isLooped st))
                  (previousCameraPos (refs w)) (previousLookAt (refs w))
                  (maxHeightReached (refs w)))
          (camera w) (calls w).

Definition ridingEffect (st : Store) (w : World) : World :=
  match isRiding st, curveRef (refs w) with
  | true, Some curve =>
      let startPoint := getPoint curve 0 in
      setMaxHeightReached (Vector3.y startPoint) w
  | _, _ => w
  end.

(** *** The frame callback (lines 58-149) *)

(** Lines 76-78, read once the gravity branch has stored the new maximum in [w]. *)

Definition gravity : R := 9.8.
Definition minSpeed : R := 1.0.

Definition heightDrop (w : World) (currentHeight : R) : R :=
  maxHeightReached (refs w) - currentHeight.

Definition energySpeed (w : World) (currentHeight : R) : R :=
  sqrt (2 * gravity * Rmax 0 (heightDrop w currentHeight)).

(** Lines 66-82: the speed of this frame, and the world with the new maximum. *)
Definition speedStep (st : Store) (firstPeakT currentHeight : R) (w : World) : World * R :=
  if hasChainLift st && ltb (rideProgress st) firstPeakT then
    let chainSpeed := 0.9 * rideSpeed st in
    (setMaxHeightReached (Rmax (maxHeightReached (refs w)) currentHeight) w, chainSpeed)
  else
    let w := setMaxHeightReached (Rmax (maxHeightReached (refs w)) currentHeight) w in
    (w, Rmax minSpeed (energySpeed w currentHeight) * rideSpeed st).

(** Lines 107-127: the camera's basis at a (normalised) tangent. *)

Definition worldUp : Vector3.t := Vector3.mk 0 1 0.

Record Basis : Type := mkBasis {
  right : Vector3.t;
  baseUp : Vector3.t;
  upVector : Vector3.t
}.

Definition basis (tangent : Vector3.t) (tilt : R) : Basis :=
  let right0 := Vector3.crossVectors tangent worldUp in
  let right1 :=
    if ltb (Vector3.lengthSq right0) 0.001 then Vector3.mk 1 0 0 else right0 in
  let right := Vector3.normalize right1 in
  let baseUp := Vector3.normalize (Vector3.crossVectors right tangent) in
  let tiltRad := (tilt * PI) / 180 in
  let upVector := Vector3.applyAxisAngle baseUp tangent tiltRad in
  mkBasis right baseUp upVector.

Definition cameraHeight : R := 1.5.

(** Lines 103-141: the pose the camera is steered to at [newProgress]. *)

Definition frameUp (st : Store) (curve : Curve) (newProgress : R) : Vector3.t :=
  let tangent := Vector3.normalize (getTangent curve newProgress) in
  let tilt := getTrackTiltAtProgress (trackPoints st) newProgress (isLooped st) in
  upVector (basis tangent tilt).

Definition targetCameraPos (st : Store) (curve : Curve) (newProgress : R) : Vector3.t :=
  let position := getPoint curve newProgress in
  let cameraOffset := Vector3.multiplyScalar (frameUp st curve newProgress) cameraHeight in
  Vector3.add position cameraOffset.

Definition lookAheadT (st : Store) (newProgress : R) : R :=
  if isLooped st
  then js_rem (newProgress + 0.03) 1
  else Rmin (newProgress + 0.03) 0.999.

Definition targetLookAt (st : Store) (curve : Curve) (newProgress : R) : Vector3.t :=
  let lookAtPoint := getPoint curve (lookAheadT st newProgress) in
  Vector3.add lookAtPoint
    (Vector3.multiplyScalar (frameUp st curve newProgress) (cameraHeight * 0.8)).

(** Lines 100-148: what a frame does once [newProgress] is settled. *)
Definition follow (st : Store) (curve : Curve) (newProgress : R) (w : World) : World :=
  let w := call (SetRideProgress newProgress) w in
  let cameraPos :=
    Vector3.lerp (previousCameraPos (refs w)) (targetCameraPos st curve newProgress) 0.25 in
  let lookAt :=
    Vector3.lerp (previousLookAt (refs w)) (targetLookAt st curve newProgress) 0.25 in
  mkWorld (mkRefs (curveRef (refs w)) cameraPos lookAt (maxHeightReached (refs w)))
          (mkCamera cameraPos lookAt)
          (calls w).

(** Lines 61-85: the world after the speed step, and [newProgress]. *)
Definition integrate (st : Store) (firstPeakT delta : R) (curve : Curve) (w : World)
  : World * R :=
  let curveLength := getLength curve in
  let currentPoint := getPoint curve (rideProgress st) in
  let currentHeight := Vector3.y currentPoint in
  let (w, speed) := speedStep st firstPeakT currentHeight w in
  let progressDelta := (speed * delta) / curveLength in
  (w, rideProgress st + progressDelta).

(** The callback given to [useFrame]; [firstPeakT] is the memoised value the
    render closed over, and [st] the store as that render read it. *)
Definition frame (st : Store) (firstPeakT delta : R) (w : World) : World :=
  match isRiding st, curveRef (refs w) with
  | true, Some curve =>
      let (w, newProgress) := integrate st firstPeakT delta curve w in
      if geb newProgress 1 then
        if isLooped st then
          let newProgress := js_rem newProgress 1 in
          let w :=
            if hasChainLift st
            then let startPoint := getPoint curve 0 in
                 setMaxHeightReached (Vector3.y startPoint) w
            else w in
          follow st curve newProgress w
        else call StopRide w
      else follow st curve newProgress w
  | _, _ => w
  end.

(** [n] frames of the smoothing of lines 144-145 under one target. *)
Definition settle (n : nat) (previous target : Vector3.t) : Vector3.t :=
  Nat.iter n (fun p => Vector3.lerp p target 0.25) previous.

(** Successive frames' pose updates (lines 100-148), one for each progress of
    [ps] in turn. *)
Definition followAll (st : Store) (curve : Curve) (ps : list R) (w : World) : World :=
  fold_left (fun w p => follow st curve p w) ps w.

(** ** Properties of the frame callback *)

Lemma frame_idle (st : Store) (firstPeakT delta : R) (w : World) :
  isRiding st = false \/ curveRef (refs w) = None ->
  frame st firstPeakT delta w = w.
Proof.
  unfold frame. intros [-> | ->]; [reflexivity|].
  destruct (isRiding st); reflexivity.
Qed.

Lemma follow_calls (st : Store) (curve : Curve) (p : R) (w : World) :
  calls (follow st curve p w) = calls w ++ [SetRideProgress p].
Proof. reflexivity. Qed.

Lemma follow_maxHeightReached (st : Store) (curve : Curve) (p : R) (w : World) :
  maxHeightReached (refs (follow st curve p w)) = maxHeightReached (refs w).
Proof. reflexivity. Qed.

Lemma speedStep_world (st : Store) (firstPeakT c : R) (w : World) :
  fst (speedStep st firstPeakT c w) =
  setMaxHeightReached (Rmax (maxHeightReached (refs w)) c) w.
Proof. unfold speedStep. destruct (_ && _); reflexivity. Qed.

Lemma integrate_world (st : Store) (firstPeakT delta : R) (curve : Curve) (w : World) :
  fst (integrate st firstPeakT delta curve w) =
  setMaxHeightReached
    (Rmax (maxHeightReached (refs w)) (Vector3.y (getPoint curve (rideProgress st)))) w.
Proof.
  unfold integrate. cbv zeta.
  rewrite (surjective_pairing (speedStep _ _ _ _)), speedStep_world. reflexivity.
Qed.

Lemma integrate_progress (st : Store) (firstPeakT delta : R) (curve : Curve) (w : World) :
  snd (integrate st firstPeakT delta curve w) =
  rideProgress st
  + (snd (speedStep st firstPeakT (Vector3.y (getPoint curve (rideProgress st))) w) * delta)
    / getLength curve.
Proof.
  unfold integrate. cbv zeta.
  rewrite (surjective_pairing (speedStep _ _ _ _)). reflexivity.
Qed.


(** The frame of a ride in progress that does not reach the end of the track. *)
Lemma frame_inside (st : Store) (firstPeakT delta : R) (w : World) (curve : Curve) :
  isRiding st = true ->
  curveRef (refs w) = Some curve ->
  snd (integrate st firstPeakT delta curve w) < 1 ->
  frame st firstPeakT delta w =
  follow st curve (snd (integrate st firstPeakT delta curve w))
    (fst (integrate st firstPeakT delta curve w)).
Proof.
  intros Hr Hc Hlt. unfold frame. rewrite Hr, Hc.
  destruct (integrate st firstPeakT delta curve w) as [w1 p]. simpl in *.
  apply geb_false in Hlt. rewrite Hlt. reflexivity.
Qed.

(** The last frame of a ride on an open track. *)
Lemma frame_stop (st : Store) (firstPeakT delta : R) (w : World) (curve : Curve) :
  isRiding st = true ->
  curveRef (refs w) = Some curve ->
  isLooped st = false ->
  1 <= snd (integrate st firstPeakT delta curve w) ->
  frame st firstPeakT delta w =
  call StopRide (fst (integrate st firstPeakT delta curve w)).
Proof.
  intros Hr Hc Hl Hge. unfold frame. rewrite Hr, Hc, Hl.
  destruct (integrate st firstPeakT delta curve w) as [w1 p]. simpl in *.
  apply geb_true in Hge. rewrite Hge. reflexivity.
Qed.

(** The frame that closes a lap of a looped track. *)
Lemma frame_wrap (st : Store) (firstPeakT delta : R) (w : World) (curve : Curve) :
  isRiding st = true ->
  curveRef (refs w) = Some curve ->
  isLooped st = true ->
  1 <= snd (integrate st firstPeakT delta curve w) ->
  frame st firstPeakT delta w =
  follow st curve (js_rem (snd (integrate st firstPeakT delta curve w)) 1)
    (if hasChainLift st
     then setMaxHeightReached (Vector3.y (getPoint curve 0))
            (fst (integrate st firstPeakT delta curve w))
     else fst (integrate st firstPeakT delta curve w)).
Proof.
  intros Hr Hc Hl Hge. unfold frame. rewrite Hr, Hc, Hl.
  destruct (integrate st firstPeakT delta curve w) as [w1 p]. simpl in *.
  apply geb_true in Hge. rewrite Hge. reflexivity.
Qed.

(** *** The climb-peak scan *)

Lemma sample_S (k : nat) : sample (S k) = sample k + 0.01.
Proof. unfold sample. rewrite S_INR. lra. Qed.


Lemma sample_le_half (k : nat) : sample k <= 0.5 <-> (k <= 50)%nat.
Proof.
  unfold sample. split; intros H.
  - apply INR_le. replace (INR 50) with 50 by (simpl; lra). lra.
  - apply le_INR in H. replace (INR 50) with 50 in H by (simpl; lra). lra.
Qed.

Lemma scanLoop_S (fuel : nat) (curve : Curve) (t : R) (s : Scan) :
  scanLoop (S fuel) curve t s
  = if Rle_dec t 0.5
    then let (s', stop) := scanBody curve t s in
         if stop then Some s' else scanLoop fuel curve (t + 0.01) s'
    else Some s.
Proof. reflexivity. Qed.

Lemma scanLoop_terminates (n : nat) (curve : Curve) (t : R) (s : Scan) :
  0.5 - t < 0.01 * INR n ->
  exists s' : Scan, scanLoop (S n) curve t s = Some s'.
Proof.
  revert t s. induction n as [|n IH]; intros t s Hn.
  - simpl in Hn. simpl. destruct (Rle_dec t 0.5) as [Hle|_]; [lra|].
    exists s. reflexivity.
  - rewrite S_INR in Hn. rewrite scanLoop_S.
    destruct (Rle_dec t 0.5) as [Hle|_]; [|exists s; reflexivity].
    destruct (scanBody curve t s) as [s1 [|]]; [exists s1; reflexivity|].
    apply IH. lra.
Qed.

Lemma scanLoop_fuel (fuel extra : nat) (curve : Curve) (t : R) (s s' : Scan) :
  scanLoop fuel curve t s = Some s' ->
  scanLoop (fuel + extra) curve t s = Some s'.
Proof.
  revert t s. induction fuel as [|fuel IH]; intros t s H; [discriminate H|].
  change (S fuel + extra)%nat with (S (fuel + extra)).
  rewrite scanLoop_S in *. destruct (Rle_dec t 0.5); [|exact H].
  destruct (scanBody curve t s) as [s1 [|]]; [exact H|].
  apply IH, H.
Qed.

Lemma scanBody_peakT (curve : Curve) (t : R) (s : Scan) :
  peakT (fst (scanBody curve t s)) = peakT s \/
  peakT (fst (scanBody curve t s)) = t.
Proof.
  unfold scanBody. cbv zeta. simpl.
  destruct (gtb _ 0.1); simpl.
  - destruct (aboveMax _ _); simpl; auto.
  - destruct (foundClimb s && aboveMax _ _); simpl; auto.
Qed.

Lemma scanLoop_peakT_range (fuel : nat) (curve : Curve) (t : R) (s s' : Scan) :
  0 <= t ->
  0 <= peakT s <= 0.5 ->
  scanLoop fuel curve t s = Some s' ->
  0 <= peakT s' <= 0.5.
Proof.
  revert t s. induction fuel as [|fuel IH]; intros t s Ht Hs H; [discriminate H|].
  rewrite scanLoop_S in H. destruct (Rle_dec t 0.5) as [Hle|_].
  - pose proof (scanBody_peakT curve t s) as Hb.
    destruct (scanBody curve t s) as [s1 stop]. simpl in Hb.
    assert (H1 : 0 <= peakT s1 <= 0.5) by (destruct Hb as [-> | ->]; lra).
    destruct stop.
    + injection H as <-. exact H1.
    + apply (IH (t + 0.01) s1); [lra | exact H1 | exact H].
  - injection H as <-. exact Hs.
Qed.

Lemma scanned_start (curve : Curve) : scanned curve 0 scanStart.
Proof. unfold scanned. simpl. repeat split. intros i Hi. lia. Qed.

Lemma climbedBy_S (curve : Curve) (k : nat) :
  climbedBy curve k ->
  (forall i : nat, (i < k)%nat -> ~ climbs curve i) ->
  climbs curve k.
Proof.
  intros (i & Hi & Hc) Hnone.
  destruct (Nat.eq_dec i k) as [-> | Hne]; [exact Hc|].
  exfalso. apply (Hnone i); [lia | exact Hc].
Qed.

(** A sample that becomes the new peak. *)
Lemma scanned_new_peak (curve : Curve) (k : nat) (b : bool) :
  climbedBy curve k ->
  (forall j : nat, (j < k)%nat -> climbedBy curve j -> height curve j < height curve k) ->
  b = true ->
  scanned curve (S k) (mkScan (Some (height curve k)) (sample k) b).
Proof.
  intros Hc Hlt ->. unfold scanned. simpl. split; [reflexivity|].
  exists k. repeat split; try lia; try assumption.
  intros j Hj Hcj. destruct (Nat.eq_dec j k) as [-> | Hne]; [lra|].
  apply Rlt_le, Hlt; [lia | exact Hcj].
Qed.

Lemma scanBody_scanned (curve : Curve) (k : nat) (s : Scan) :
  scanned curve k s ->
  scanned curve (S k) (fst (scanBody curve (sample k) s)).
Proof.
  intros Hs. unfold scanBody. cbv zeta. simpl.
  fold (height curve k).
  destruct (gtb (Vector3.y (getTangent curve (sample k))) 0.1) eqn:Hclimb.
  - (* this sample climbs *)
    apply gtb_true in Hclimb. fold (climbs curve k) in Hclimb.
    assert (Hck : climbedBy curve k) by (exists k; split; [lia | exact Hclimb]).
    unfold scanned in Hs. simpl.
    destruct (maxHeight s) as [h|] eqn:Hm; simpl.
    + destruct Hs as (Hf & p & Hp & HpT & Hh & Hcp & Hmax & Hfirst).
      destruct (gtb (height curve k) h) eqn:Hgt.
      * apply gtb_true in Hgt. apply scanned_new_peak; [exact Hck| |reflexivity].
        intros j Hj Hcj. specialize (Hmax j Hj Hcj). lra.
      * apply gtb_false in Hgt. unfold scanned. simpl.
        split; [reflexivity|]. exists p. repeat split; try assumption; try lia.
        intros j Hj Hcj. destruct (Nat.eq_dec j k) as [-> | Hne]; [lra|].
        apply Hmax; [lia | exact Hcj].
    + destruct Hs as (Hf & HpT & Hnone).
      apply scanned_new_peak; [exact Hck| |reflexivity].
      intros j Hj (i & Hi & Hci). exfalso. apply (Hnone i); [lia | exact Hci].
  - (* this sample does not climb *)
    apply gtb_false in Hclimb.
    assert (Hnc : ~ climbs curve k) by (unfold climbs; lra).
    unfold scanned in Hs.
    destruct (maxHeight s) as [h|] eqn:Hm.
    + destruct Hs as (Hf & p & Hp & HpT & Hh & Hcp & Hmax & Hfirst).
      assert (Hck : climbedBy curve k).
      { destruct Hcp as (i & Hi & Hci). exists i. split; [lia | exact Hci]. }
      rewrite Hf. simpl.
      destruct (gtb (height curve k) h) eqn:Hgt.
      * apply gtb_true in Hgt. apply scanned_new_peak; [exact Hck| |reflexivity].
        intros j Hj Hcj. specialize (Hmax j Hj Hcj). lra.
      * apply gtb_false in Hgt. unfold scanned. rewrite Hm.
        split; [exact Hf|]. exists p. repeat split; try assumption; try lia.
        intros j Hj Hcj. destruct (Nat.eq_dec j k) as [-> | Hne]; [lra|].
        apply Hmax; [lia | exact Hcj].
    + destruct Hs as (Hf & HpT & Hnone).
      rewrite Hf. simpl. unfold scanned. rewrite Hm.
      repeat split; try assumption.
      intros i Hi. destruct (Nat.eq_dec i k) as [-> | Hne]; [exact Hnc|].
      apply Hnone. lia.
Qed.

Lemma scanLoop_scanned (fuel : nat) (curve : Curve) (k : nat) (s s' : Scan) :
  (k <= 51)%nat ->
  scanned curve k s ->
  scanLoop fuel curve (sample k) s = Some s' ->
  exists n : nat, (k <= n <= 51)%nat /\ scanned curve n s'.
Proof.
  revert k s. induction fuel as [|fuel IH]; intros k s Hk Hs H; [discriminate H|].
  rewrite scanLoop_S in H. destruct (Rle_dec (sample k) 0.5) as [Hle|_].
  - apply sample_le_half in Hle.
    pose proof (scanBody_scanned curve k s Hs) as Hb.
    destruct (scanBody curve (sample k) s) as [s1 stop]. simpl in Hb.
    destruct stop.
    + injection H as <-. exists (S k). split; [lia | exact Hb].
    + rewrite <- sample_S in H.
      destruct (IH (S k) s1 ltac:(lia) Hb H) as (n & Hn & Hsn).
      exists n. split; [lia | exact Hsn].
  - injection H as <-. exists k. split; [lia | exact Hs].
Qed.

Lemma scan_result (curve : Curve) :
  exists (s : Scan) (n : nat),
    scanLoop 52 curve 0 scanStart = Some s /\
    (n <= 51)%nat /\ scanned curve n s /\ 0 <= peakT s <= 0.5.
Proof.
  destruct (scanLoop_terminates 51 curve 0 scanStart) as [s Hs].
  { replace (INR 51) with 51 by (simpl; lra). lra. }
  assert (H0 : sample 0 = 0) by (unfold sample; simpl; lra).
  destruct (scanLoop_scanned 52 curve 0 scanStart s) as (n & Hn & Hsn).
  - lia.
  - apply scanned_start.
  - rewrite H0. exact Hs.
  - assert (Hstart : 0 <= peakT scanStart <= 0.5) by (unfold scanStart, peakT; lra).
    pose proof (scanLoop_peakT_range 52 curve 0 scanStart s (Rle_refl 0) Hstart Hs).
    exists s, n. repeat split; try assumption; try lia; lra.
Qed.

(** More fuel than the 52 rounds changes nothing. *)
Lemma firstPeakT_fuel_enough (extra : nat) (st : Store) :
  firstPeakT_fuel (52 + extra) st = firstPeakT st.
Proof.
  unfold firstPeakT, firstPeakT_fuel.
  destruct (List.length (trackPoints st) <? 2)%nat; [reflexivity|].
  destruct (getTrackCurve (trackPoints st) (isLooped st)) as [curve|]; [|reflexivity].
  destruct (scan_result curve) as (s & n & Hs & _).
  rewrite (scanLoop_fuel 52 extra curve 0 scanStart s Hs), Hs. reflexivity.
Qed.





(** C8.  Whatever the track points and the loop flag, [firstPeakT] returns a
    value of [0, 0.5]: 0 for a degenerate track, the fallback 0.2, or a sample
    of the scan, none of which is above 0.5. *)
Theorem firstPeakT_range (st : Store) :
  exists r : R, firstPeakT st = Some r /\ 0 <= r <= 0.5.
Proof.
  unfold firstPeakT, firstPeakT_fuel.
  destruct (List.length (trackPoints st) <? 2)%nat; [exists 0; split; [reflexivity|lra]|].
  destruct (getTrackCurve (trackPoints st) (isLooped st)) as [curve|];
    [|exists 0; split; [reflexivity|lra]].
  destruct (scan_result curve) as (s & n & -> & _ & _ & Hrange).
  eexists. split; [reflexivity|].
  destruct (gtb (peakT s) 0); lra.
Qed.

(** *** The speed integrator *)

Lemma speedStep_floor (st : Store) (firstPeakT c : R) (w : World) :
  hasChainLift st && ltb (rideProgress st) firstPeakT = false ->
  0 <= rideSpeed st ->
  rideSpeed st <= snd (speedStep st firstPeakT c w).
Proof.
  intros Hphase Hs. unfold speedStep. rewrite Hphase. simpl.
  pose proof (Rmax_l minSpeed
                (energySpeed (setMaxHeightReached (Rmax (maxHeightReached (refs w)) c) w) c))
    as Hfloor.
  unfold minSpeed in *. nra.
Qed.

(** What a frame of a ride in progress leaves in [maxHeightReached], unless it
    closes a lap of a looped track with a chain lift. *)
Lemma frame_maxHeightReached
  (st : Store) (firstPeakT delta : R) (curve : Curve) (w : World) :
  isRiding st = true ->
  curveRef (refs w) = Some curve ->
  isLooped st = false \/ hasChainLift st = false
  \/ snd (integrate st firstPeakT delta curve w) < 1 ->
  maxHeightReached (refs (frame st firstPeakT delta w))
  = Rmax (maxHeightReached (refs w)) (Vector3.y (getPoint curve (rideProgress st))).
Proof.
  intros Hr Hc Hcase.
  destruct (Rlt_dec (snd (integrate st firstPeakT delta curve w)) 1) as [Hlt | Hge].
  - rewrite (frame_inside _ _ _ _ curve Hr Hc Hlt), follow_maxHeightReached,
      integrate_world. reflexivity.
  - assert (Hge' : 1 <= snd (integrate st firstPeakT delta curve w)) by lra.
    destruct (isLooped st) eqn:Hloop.
    + destruct Hcase as [Hcase | [Hcase | Hcase]]; [discriminate Hcase | | lra].
      rewrite (frame_wrap _ _ _ _ curve Hr Hc Hloop Hge'), follow_maxHeightReached,
        Hcase, integrate_world. reflexivity.
    + rewrite (frame_stop _ _ _ _ curve Hr Hc Hloop Hge'), integrate_world.
      reflexivity.
Qed.

(** C1.  In the gravity phase (no chain lift, or progress at or past
    [firstPeakT]) the frame first stores [max (maxHeightReached, currentHeight)]
    in [maxHeightReached], then takes
    [energySpeed = sqrt (2 * 9.8 * max (0, maxHeightReached - currentHeight))]
    from the stored maximum, and its speed is [max (1.0, energySpeed) * rideSpeed]:
    before the scale the speed is never below 1.0, whatever the heights are.
    The stored maximum is what the frame leaves behind, unless it closes a lap
    of a looped track with a chain lift. *)
Theorem gravity_phase_speed
  (st : Store) (firstPeakT delta : R) (curve : Curve) (w : World) :
  hasChainLift st = false \/ firstPeakT <= rideProgress st ->
  let c := Vector3.y (getPoint curve (rideProgress st)) in
  let m := Rmax (maxHeightReached (refs w)) c in
  let e := sqrt (2 * 9.8 * Rmax 0 (m - c)) in
  speedStep st firstPeakT c w = (setMaxHeightReached m w, Rmax 1.0 e * rideSpeed st) /\
  maxHeightReached (refs (fst (speedStep st firstPeakT c w))) = m /\
  energySpeed (fst (speedStep st firstPeakT c w)) c
  = sqrt (2 * 9.8
          * Rmax 0 (maxHeightReached (refs (fst (speedStep st firstPeakT c w))) - c)) /\
  energySpeed (setMaxHeightReached m w) c = e /\
  snd (speedStep st firstPeakT c w) = Rmax 1.0 e * rideSpeed st /\
  1.0 <= Rmax 1.0 e /\
  integrate st firstPeakT delta curve w =
  (setMaxHeightReached m w,
   rideProgress st + (Rmax 1.0 e * rideSpeed st * delta) / getLength curve) /\
  maxHeightReached (refs (fst (integrate st firstPeakT delta curve w))) = m /\
  (isRiding st = true ->
   curveRef (refs w) = Some curve ->
   isLooped st = false \/ hasChainLift st = false
   \/ snd (integrate st firstPeakT delta curve w) < 1 ->
   maxHeightReached (refs (frame st firstPeakT delta w)) = m).
Proof.
  intros Hphase c m e.
  assert (Hstep : speedStep st firstPeakT c w
                  = (setMaxHeightReached m w, Rmax 1.0 e * rideSpeed st)).
  { unfold speedStep.
    replace (hasChainLift st && ltb (rideProgress st) firstPeakT) with false.
    - reflexivity.
    - symmetry. apply andb_false_iff.
      destruct Hphase as [H | H]; [left; exact H | right; apply ltb_false; exact H]. }
  assert (Hint : integrate st firstPeakT delta curve w =
                 (setMaxHeightReached m w,
                  rideProgress st + (Rmax 1.0 e * rideSpeed st * delta) / getLength curve))
    by (unfold integrate; cbv zeta; fold c; rewrite Hstep; reflexivity).
  assert (Hframe : isRiding st = true ->
                   curveRef (refs w) = Some curve ->
                   isLooped st = false \/ hasChainLift st = false
                   \/ snd (integrate st firstPeakT delta curve w) < 1 ->
                   maxHeightReached (refs (frame st firstPeakT delta w)) = m)
    by (intros Hr Hc Hcase; apply (frame_maxHeightReached _ _ _ curve); assumption).
  split; [exact Hstep|]. rewrite Hstep.
  split; [reflexivity|]. split; [reflexivity|]. split; [reflexivity|].
  split; [reflexivity|]. split; [apply Rmax_l|]. split; [exact Hint|].
  split; [rewrite Hint; reflexivity | exact Hframe].
Qed.

(** C4.  While the chain lift is on and progress is below [firstPeakT] the speed
    is exactly [0.9 * rideSpeed], whatever heights came before, and the frame
    stores [max (maxHeightReached, currentHeight)] in [maxHeightReached]; from
    [firstPeakT] on the speed is the energy-based one.  On the lift
    [newProgress] is [progress + 0.9 * rideSpeed * delta / curveLength], and the
    stored maximum is what the frame leaves behind unless it closes a lap of a
    looped track. *)
Theorem chain_lift_speed (st : Store) (firstPeakT c : R) (w : World) :
  hasChainLift st = true ->
  let m := Rmax (maxHeightReached (refs w)) c in
  (rideProgress st < firstPeakT ->
   speedStep st firstPeakT c w = (setMaxHeightReached m w, 0.9 * rideSpeed st) /\
   snd (speedStep st firstPeakT c w) = 0.9 * rideSpeed st /\
   maxHeightReached (refs (fst (speedStep st firstPeakT c w))) = m) /\
  (firstPeakT <= rideProgress st ->
   speedStep st firstPeakT c w =
   (setMaxHeightReached m w,
    Rmax 1.0 (energySpeed (setMaxHeightReached m w) c) * rideSpeed st) /\
   snd (speedStep st firstPeakT c w)
   = Rmax 1.0 (sqrt (2 * 9.8 * Rmax 0 (m - c))) * rideSpeed st /\
   maxHeightReached (refs (fst (speedStep st firstPeakT c w))) = m) /\
  (forall (curve : Curve) (delta : R),
     rideProgress st < firstPeakT ->
     snd (integrate st firstPeakT delta curve w)
     = rideProgress st + (0.9 * rideSpeed st * delta) / getLength curve /\
     (isRiding st = true ->
      curveRef (refs w) = Some curve ->
      isLooped st = false \/ snd (integrate st firstPeakT delta curve w) < 1 ->
      maxHeightReached (refs (frame st firstPeakT delta w))
      = Rmax (maxHeightReached (refs w)) (Vector3.y (getPoint curve (rideProgress st))))).
Proof.
  intros Hlift m. split; [|split].
  - intros H. apply ltb_true in H.
    assert (Hstep : speedStep st firstPeakT c w
                    = (setMaxHeightReached m w, 0.9 * rideSpeed st))
      by (unfold speedStep; rewrite Hlift, H; reflexivity).
    rewrite Hstep. repeat split.
  - intros H. apply ltb_false in H.
    assert (Hstep : speedStep st firstPeakT c w
                    = (setMaxHeightReached m w,
                       Rmax 1.0 (energySpeed (setMaxHeightReached m w) c) * rideSpeed st))
      by (unfold speedStep; rewrite Hlift, H; reflexivity).
    rewrite Hstep. repeat split.
  - intros curve delta H. split.
    + rewrite integrate_progress. apply ltb_true in H.
      unfold speedStep. rewrite Hlift, H. reflexivity.
    + intros Hr Hc Hcase. apply (frame_maxHeightReached _ _ _ curve); try assumption.
      destruct Hcase as [Hcase | Hcase]; [left; exact Hcase | right; right; exact Hcase].
Qed.


(** *** The end of the track *)

(** C2.  On an open track, a frame whose
    [newProgress = progress + speed * delta / arcLength] is 1 or more invokes
    [stopRide] (once, and nothing else of the store: progress is not written),
    and leaves the smoothed pose and the camera as they were. *)
Theorem open_track_stop
  (st : Store) (firstPeakT delta : R) (curve : Curve) (w : World) :
  isRiding st = true ->
  curveRef (refs w) = Some curve ->
  isLooped st = false ->
  let c := Vector3.y (getPoint curve (rideProgress st)) in
  let newProgress :=
    rideProgress st + (snd (speedStep st firstPeakT c w) * delta) / getLength curve in
  1 <= newProgress ->
  let w' := frame st firstPeakT delta w in
  calls w' = calls w ++ [StopRide] /\
  previousCameraPos (refs w') = previousCameraPos (refs w) /\
  previousLookAt (refs w') = previousLookAt (refs w) /\
  camera w' = camera w.
Proof.
  intros Hr Hc Hl c newProgress Hge w'.
  unfold w'. rewrite (frame_stop _ _ _ _ curve Hr Hc Hl).
  - rewrite integrate_world. repeat split.
  - rewrite integrate_progress. exact Hge.
Qed.

(** C10.  That last frame of an open track has stored
    [max (maxHeightReached, currentHeight)] before it invokes [stopRide]; apart
    from that nothing that persists is touched: no progress is written, and
    [previousCameraPos] and [previousLookAt] stay. *)
Theorem open_track_stop_effect
  (st : Store) (firstPeakT delta : R) (curve : Curve) (w : World) :
  isRiding st = true ->
  curveRef (refs w) = Some curve ->
  isLooped st = false ->
  let c := Vector3.y (getPoint curve (rideProgress st)) in
  1 <= snd (integrate st firstPeakT delta curve w) ->
  frame st firstPeakT delta w =
  call StopRide (setMaxHeightReached (Rmax (maxHeightReached (refs w)) c) w) /\
  refs (frame st firstPeakT delta w) =
  mkRefs (Some curve) (previousCameraPos (refs w)) (previousLookAt (refs w))
         (Rmax (maxHeightReached (refs w)) c) /\
  (forall p, In (SetRideProgress p) (calls (frame st firstPeakT delta w)) ->
             In (SetRideProgress p) (calls w)).
Proof.
  intros Hr Hc Hl c Hge.
  rewrite (frame_stop _ _ _ _ curve Hr Hc Hl Hge), integrate_world. fold c.
  repeat split.
  - simpl. rewrite Hc. reflexivity.
  - simpl. intros p Hin. apply in_app_or in Hin. destruct Hin as [Hin | [Hin | []]].
    + exact Hin.
    + discriminate Hin.
Qed.

(** C3.  On a looped track, a frame whose [newProgress] is 1 or more writes
    [newProgress mod 1] as the progress, a value in [0, 1); with a chain lift
    the same frame resets [maxHeightReached] to the height of the curve at 0. *)
Theorem looped_wrap
  (st : Store) (firstPeakT delta : R) (curve : Curve) (w : World) :
  isRiding st = true ->
  curveRef (refs w) = Some curve ->
  isLooped st = true ->
  let c := Vector3.y (getPoint curve (rideProgress st)) in
  let newProgress :=
    rideProgress st + (snd (speedStep st firstPeakT c w) * delta) / getLength curve in
  1 <= newProgress ->
  let w' := frame st firstPeakT delta w in
  calls w' = calls w ++ [SetRideProgress (js_rem newProgress 1)] /\
  js_rem newProgress 1 = newProgress - IZR (Int_part newProgress) /\
  0 <= js_rem newProgress 1 < 1 /\
  (hasChainLift st = true ->
   maxHeightReached (refs w') = Vector3.y (getPoint curve 0)).
Proof.
  intros Hr Hc Hl c newProgress Hge w'.
  assert (Hnp : snd (integrate st firstPeakT delta curve w) = newProgress)
    by apply integrate_progress.
  unfold w'. rewrite (frame_wrap _ _ _ _ curve Hr Hc Hl) by (rewrite Hnp; exact Hge).
  rewrite Hnp, follow_calls, follow_maxHeightReached, integrate_world.
  assert (H0 : 0 <= newProgress) by lra.
  repeat split.
  - destruct (hasChainLift st); reflexivity.
  - rewrite js_rem_1_frac by exact H0. reflexivity.
  - apply js_rem_1_range; exact H0.
  - apply js_rem_1_range; exact H0.
  - intros ->. reflexivity.
Qed.

(** *** Pose smoothing *)

Lemma follow_smoothing (st : Store) (curve : Curve) (p : R) (w : World) :
  previousCameraPos (refs (follow st curve p w))
  = Vector3.lerp (previousCameraPos (refs w)) (targetCameraPos st curve p) 0.25 /\
  previousLookAt (refs (follow st curve p w))
  = Vector3.lerp (previousLookAt (refs w)) (targetLookAt st curve p) 0.25 /\
  camera (follow st curve p w)
  = mkCamera (previousCameraPos (refs (follow st curve p w)))
             (previousLookAt (refs (follow st curve p w))).
Proof. repeat split. Qed.

Lemma sum_squares_nonneg (a b c : R) : 0 <= a * a + b * b + c * c.
Proof.
  pose proof (Rle_0_sqr a). pose proof (Rle_0_sqr b). pose proof (Rle_0_sqr c).
  unfold Rsqr in *. lra.
Qed.

Lemma sum_squares_zero (a b c : R) :
  a * a + b * b + c * c = 0 -> a = 0 /\ b = 0 /\ c = 0.
Proof.
  intros H.
  pose proof (Rle_0_sqr a). pose proof (Rle_0_sqr b). pose proof (Rle_0_sqr c).
  unfold Rsqr in *.
  repeat split; apply Rsqr_0_uniq; unfold Rsqr; lra.
Qed.

Lemma distanceTo_nonneg (a b : Vector3.t) : 0 <= Vector3.distanceTo a b.
Proof. apply sqrt_pos. Qed.

Lemma distanceTo_zero (a b : Vector3.t) : Vector3.distanceTo a b = 0 -> a = b.
Proof.
  unfold Vector3.distanceTo. intros H.
  apply sqrt_eq_0 in H; [|apply sum_squares_nonneg].
  destruct a as [ax ay az], b as [bx by' bz]. simpl in H.
  apply sum_squares_zero in H. destruct H as (Hx & Hy & Hz).
  f_equal; lra.
Qed.

Lemma lerp_contracts (previous target : Vector3.t) :
  Vector3.distanceTo (Vector3.lerp previous target 0.25) target
  = 0.75 * Vector3.distanceTo previous target.
Proof.
  unfold Vector3.distanceTo, Vector3.lerp. simpl.
  set (dx := Vector3.x previous - Vector3.x target).
  set (dy := Vector3.y previous - Vector3.y target).
  set (dz := Vector3.z previous - Vector3.z target).
  replace (_ + _ + _) with ((0.75 * 0.75) * (dx * dx + dy * dy + dz * dz))
    by (unfold dx, dy, dz; lra).
  rewrite sqrt_mult; [|lra|apply sum_squares_nonneg].
  rewrite sqrt_square by lra. reflexivity.
Qed.

Lemma settle_distance (n : nat) (previous target : Vector3.t) :
  Vector3.distanceTo (settle n previous target) target
  = 0.75 ^ n * Vector3.distanceTo previous target.
Proof.
  induction n as [|n IH]; simpl.
  - lra.
  - fold (settle n previous target). rewrite lerp_contracts, IH. lra.
Qed.

Lemma settle_converges (previous target : Vector3.t) (eps : R) :
  0 < eps ->
  exists N : nat, forall n : nat, (N <= n)%nat ->
    Vector3.distanceTo (settle n previous target) target < eps.
Proof.
  intros Heps.
  pose proof (distanceTo_nonneg previous target) as Hd.
  set (d := Vector3.distanceTo previous target) in *.
  assert (Hq : 0 < eps / (d + 1)) by (apply Rdiv_lt_0_compat; lra).
  destruct (pow_lt_1_zero 0.75 ltac:(rewrite Rabs_pos_eq; lra) _ Hq) as [N HN].
  exists N. intros n Hn. rewrite settle_distance. fold d.
  specialize (HN n Hn). rewrite Rabs_pos_eq in HN by (apply pow_le; lra).
  assert (Hmul : 0.75 ^ n * (d + 1) < eps).
  { apply (Rmult_lt_compat_r (d + 1)) in HN; [|lra].
    replace (eps / (d + 1) * (d + 1)) with eps in HN by (field; lra).
    exact HN. }
  assert (0 <= 0.75 ^ n) by (apply pow_le; lra).
  nra.
Qed.

Lemma settle_first (n : nat) (previous target : Vector3.t) :
  settle (S n) previous target = settle n (Vector3.lerp previous target 0.25) target.
Proof. unfold settle. apply Nat.iter_succ_r. Qed.

(** Frames that all steer to one pose smooth as [settle] does. *)
Lemma followAll_pose
  (st : Store) (curve : Curve) (cameraTarget lookTarget : Vector3.t)
  (ps : list R) (w : World) :
  (forall p : R, In p ps ->
     targetCameraPos st curve p = cameraTarget /\ targetLookAt st curve p = lookTarget) ->
  previousCameraPos (refs (followAll st curve ps w))
  = settle (List.length ps) (previousCameraPos (refs w)) cameraTarget /\
  previousLookAt (refs (followAll st curve ps w))
  = settle (List.length ps) (previousLookAt (refs w)) lookTarget.
Proof.
  revert w. induction ps as [|p ps IH]; intros w Hheld.
  - split; reflexivity.
  - destruct (Hheld p (or_introl eq_refl)) as [Hcam Hlook].
    destruct (IH (follow st curve p w) (fun q Hq => Hheld q (or_intror Hq))) as [IHc IHl].
    change (followAll st curve (p :: ps) w) with (followAll st curve ps (follow st curve p w)).
    change (List.length (p :: ps)) with (S (List.length ps)).
    rewrite IHc, IHl, !settle_first.
    destruct (follow_smoothing st curve p w) as (-> & -> & _).
    rewrite Hcam, Hlook. split; reflexivity.
Qed.

(** C7.  Each frame's smoothing step
    [previousCameraPos = lerp (previousCameraPos, targetCameraPos, 0.25)], and
    the same for [previousLookAt], leaves the smoothed pose at 0.75 times its
    distance from the target, strictly nearer while it is not on the target.
    So under a target pose held over successive frames the distance after
    [n] frames is [0.75 ^ n] times the first one, and after enough frames it
    is below any positive bound. *)
Theorem smoothing_converges (st : Store) (curve : Curve) (w : World) :
  (forall p : R,
     Vector3.distanceTo (previousCameraPos (refs (follow st curve p w)))
                        (targetCameraPos st curve p)
     = 0.75 * Vector3.distanceTo (previousCameraPos (refs w)) (targetCameraPos st curve p) /\
     Vector3.distanceTo (previousLookAt (refs (follow st curve p w)))
                        (targetLookAt st curve p)
     = 0.75 * Vector3.distanceTo (previousLookAt (refs w)) (targetLookAt st curve p) /\
     (previousCameraPos (refs w) <> targetCameraPos st curve p ->
      Vector3.distanceTo (previousCameraPos (refs (follow st curve p w)))
                         (targetCameraPos st curve p)
      < Vector3.distanceTo (previousCameraPos (refs w)) (targetCameraPos st curve p)) /\
     (previousLookAt (refs w) <> targetLookAt st curve p ->
      Vector3.distanceTo (previousLookAt (refs (follow st curve p w)))
                         (targetLookAt st curve p)
      < Vector3.distanceTo (previousLookAt (refs w)) (targetLookAt st curve p))) /\
  (forall firstPeakT delta : R,
     isRiding st = true ->
     curveRef (refs w) = Some curve ->
     snd (integrate st firstPeakT delta curve w) < 1 ->
     let newProgress := snd (integrate st firstPeakT delta curve w) in
     let w' := frame st firstPeakT delta w in
     Vector3.distanceTo (previousCameraPos (refs w')) (targetCameraPos st curve newProgress)
     = 0.75 * Vector3.distanceTo (previousCameraPos (refs w))
                                 (targetCameraPos st curve newProgress) /\
     Vector3.distanceTo (previousLookAt (refs w')) (targetLookAt st curve newProgress)
     = 0.75 * Vector3.distanceTo (previousLookAt (refs w))
                                 (targetLookAt st curve newProgress)) /\
  (forall (cameraTarget lookTarget : Vector3.t) (ps : list R),
     (forall p : R, In p ps ->
        targetCameraPos st curve p = cameraTarget /\
        targetLookAt st curve p = lookTarget) ->
     Vector3.distanceTo (previousCameraPos (refs (followAll st curve ps w))) cameraTarget
     = 0.75 ^ List.length ps * Vector3.distanceTo (previousCameraPos (refs w)) cameraTarget /\
     Vector3.distanceTo (previousLookAt (refs (followAll st curve ps w))) lookTarget
     = 0.75 ^ List.length ps * Vector3.distanceTo (previousLookAt (refs w)) lookTarget) /\
  (forall (cameraTarget lookTarget : Vector3.t) (eps : R),
     0 < eps ->
     exists N : nat, forall ps : list R,
       (N <= List.length ps)%nat ->
       (forall p : R, In p ps ->
          targetCameraPos st curve p = cameraTarget /\
          targetLookAt st curve p = lookTarget) ->
       Vector3.distanceTo (previousCameraPos (refs (followAll st curve ps w))) cameraTarget
       < eps /\
       Vector3.distanceTo (previousLookAt (refs (followAll st curve ps w))) lookTarget
       < eps).
Proof.
  assert (Hstrict : forall a t : Vector3.t,
             a <> t ->
             0.75 * Vector3.distanceTo a t < Vector3.distanceTo a t).
  { intros a t Hne. pose proof (distanceTo_nonneg a t).
    assert (Vector3.distanceTo a t <> 0)
      by (intros H0; apply Hne, distanceTo_zero, H0).
    lra. }
  split; [|split; [|split]].
  - intros p. destruct (follow_smoothing st curve p w) as (-> & -> & _).
    rewrite !lerp_contracts. repeat split; intros Hne; apply Hstrict, Hne.
  - intros firstPeakT delta Hr Hc Hlt newProgress w'. unfold w', newProgress.
    rewrite (frame_inside _ _ _ _ curve Hr Hc Hlt).
    set (p := snd (integrate st firstPeakT delta curve w)).
    destruct (follow_smoothing st curve p (fst (integrate st firstPeakT delta curve w)))
      as (-> & -> & _).
    rewrite integrate_world, !lerp_contracts. split; reflexivity.
  - intros cameraTarget lookTarget ps Hheld.
    destruct (followAll_pose st curve cameraTarget lookTarget ps w Hheld) as [-> ->].
    rewrite !settle_distance. split; reflexivity.
  - intros cameraTarget lookTarget eps Heps.
    destruct (settle_converges (previousCameraPos (refs w)) cameraTarget eps Heps)
      as [Nc HNc].
    destruct (settle_converges (previousLookAt (refs w)) lookTarget eps Heps)
      as [Nl HNl].
    exists (Nat.max Nc Nl). intros ps Hlen Hheld.
    destruct (followAll_pose st curve cameraTarget lookTarget ps w Hheld) as [-> ->].
    split; [apply HNc | apply HNl]; lia.
Qed.

(** *** The orientation basis *)

Lemma lengthSq_nonneg (a : Vector3.t) : 0 <= Vector3.lengthSq a.
Proof. apply sum_squares_nonneg. Qed.

Lemma length_unit (a : Vector3.t) : Vector3.lengthSq a = 1 -> Vector3.length a = 1.
Proof. unfold Vector3.length. intros ->. apply sqrt_1. Qed.

Lemma length_square (a : Vector3.t) :
  Vector3.length a * Vector3.length a = Vector3.lengthSq a.
Proof. apply sqrt_sqrt, lengthSq_nonneg. Qed.

Lemma normalize_zero (a : Vector3.t) :
  Vector3.lengthSq a = 0 -> Vector3.normalize a = a.
Proof.
  intros H. unfold Vector3.normalize, Vector3.length. rewrite H, sqrt_0.
  destruct (Req_dec_T 0 0) as [_|Hne]; [|contradiction].
  destruct a as [ax ay az]. simpl. f_equal; lra.
Qed.

Lemma normalize_unit (a : Vector3.t) :
  Vector3.lengthSq a = 1 -> Vector3.normalize a = a.
Proof.
  intros H. unfold Vector3.normalize. rewrite (length_unit a H).
  destruct (Req_dec_T 1 0) as [Hne|_]; [lra|].
  destruct a as [ax ay az]. simpl. f_equal; lra.
Qed.

Lemma normalize_lengthSq (a : Vector3.t) :
  Vector3.lengthSq a <> 0 -> Vector3.lengthSq (Vector3.normalize a) = 1.
Proof.
  intros H. pose proof (length_square a) as Hl.
  unfold Vector3.normalize.
  destruct (Req_dec_T (Vector3.length a) 0) as [H0|Hne].
  - rewrite H0 in Hl. lra.
  - unfold Vector3.lengthSq in *. simpl.
    set (l := Vector3.length a) in *.
    replace (_ + _ + _)
      with ((Vector3.x a * Vector3.x a + Vector3.y a * Vector3.y a
             + Vector3.z a * Vector3.z a) / (l * l)) by (field; exact Hne).
    rewrite <- Hl. field. exact Hne.
Qed.

(** Lagrange's identity. *)
Lemma lengthSq_crossVectors (a b : Vector3.t) :
  Vector3.lengthSq (Vector3.crossVectors a b)
  = Vector3.lengthSq a * Vector3.lengthSq b - Vector3.dot a b * Vector3.dot a b.
Proof. unfold Vector3.lengthSq, Vector3.crossVectors, Vector3.dot. simpl. ring. Qed.

Lemma dot_crossVectors_l (a b : Vector3.t) :
  Vector3.dot (Vector3.crossVectors a b) a = 0.
Proof. unfold Vector3.crossVectors, Vector3.dot. simpl. ring. Qed.

Lemma dot_crossVectors_r (a b : Vector3.t) :
  Vector3.dot (Vector3.crossVectors a b) b = 0.
Proof. unfold Vector3.crossVectors, Vector3.dot. simpl. ring. Qed.

Lemma dot_comm (a b : Vector3.t) : Vector3.dot a b = Vector3.dot b a.
Proof. unfold Vector3.dot. ring. Qed.

(** [a x (b x a) = b] and [(b x a) x b = a] for orthogonal unit vectors. *)
Lemma crossVectors_back (a b : Vector3.t) :
  Vector3.lengthSq a = 1 -> Vector3.dot a b = 0 ->
  Vector3.crossVectors a (Vector3.crossVectors b a) = b.
Proof.
  destruct a as [ax ay az], b as [bx by' bz].
  unfold Vector3.lengthSq, Vector3.dot, Vector3.crossVectors. simpl. intros Hl Hd.
  f_equal.
  - replace bx with (bx * (ax * ax + ay * ay + az * az)
                     - ax * (ax * bx + ay * by' + az * bz)) at 3
      by (rewrite Hl, Hd; ring).
    ring.
  - replace by' with (by' * (ax * ax + ay * ay + az * az)
                      - ay * (ax * bx + ay * by' + az * bz)) at 3
      by (rewrite Hl, Hd; ring).
    ring.
  - replace bz with (bz * (ax * ax + ay * ay + az * az)
                     - az * (ax * bx + ay * by' + az * bz)) at 3
      by (rewrite Hl, Hd; ring).
    ring.
Qed.

Lemma crossVectors_swap (a b : Vector3.t) :
  Vector3.crossVectors (Vector3.crossVectors a b) a
  = Vector3.crossVectors a (Vector3.crossVectors b a).
Proof. unfold Vector3.crossVectors. simpl. f_equal; ring. Qed.

Lemma applyAxisAngle_0 (v axis : Vector3.t) : Vector3.applyAxisAngle v axis 0 = v.
Proof.
  unfold Vector3.applyAxisAngle. cbv zeta.
  replace (0 / 2) with 0 by lra. rewrite sin_0, cos_0.
  destruct v as [a b c]. simpl. f_equal; ring.
Qed.

Lemma normalize_scales (a : Vector3.t) :
  exists k : R, Vector3.normalize a = Vector3.multiplyScalar a k.
Proof.
  unfold Vector3.normalize.
  exists (/ (if Req_dec_T (Vector3.length a) 0 then 1 else Vector3.length a)).
  reflexivity.
Qed.

Lemma dot_multiplyScalar_l (a b : Vector3.t) (k : R) :
  Vector3.dot (Vector3.multiplyScalar a k) b = k * Vector3.dot a b.
Proof. unfold Vector3.dot, Vector3.multiplyScalar. simpl. ring. Qed.

(** C6.  Where the tangent is not degenerate ([tangent x worldUp] has a squared
    length of 0.001 or more), [right], [baseUp] and the untilted [upVector]
    are unit vectors, orthogonal to each other and to the (unit) tangent, and
    [right], [tangent], [baseUp] is a right-handed frame: the cross product of
    each two in this cyclic order is the third.  Where the cross product is
    nearly zero, [right] is the fallback [(1, 0, 0)]. *)
Theorem orientation_basis (g : Vector3.t) (tilt : R) :
  let tangent := Vector3.normalize g in
  let b := basis tangent tilt in
  (0.001 <= Vector3.lengthSq (Vector3.crossVectors tangent worldUp) ->
   right b = Vector3.normalize (Vector3.crossVectors tangent worldUp) /\
   Vector3.length tangent = 1 /\
   Vector3.length (right b) = 1 /\
   Vector3.length (baseUp b) = 1 /\
   Vector3.dot (right b) tangent = 0 /\
   Vector3.dot (baseUp b) tangent = 0 /\
   Vector3.dot (right b) (baseUp b) = 0 /\
   Vector3.crossVectors (right b) tangent = baseUp b /\
   Vector3.crossVectors tangent (baseUp b) = right b /\
   Vector3.crossVectors (baseUp b) (right b) = tangent /\
   (tilt = 0 -> upVector b = baseUp b)) /\
  (Vector3.lengthSq (Vector3.crossVectors tangent worldUp) < 0.001 ->
   right b = Vector3.mk 1 0 0).
Proof.
  intros tangent b. split.
  - intros Hq.
    assert (HT : Vector3.lengthSq tangent = 1).
    { destruct (Req_dec_T (Vector3.lengthSq g) 0) as [H0 | Hne].
      - exfalso. unfold tangent in Hq. rewrite (normalize_zero g H0) in Hq.
        rewrite lengthSq_crossVectors, H0 in Hq.
        pose proof (Rle_0_sqr (Vector3.dot g worldUp)) as Hs. unfold Rsqr in Hs. lra.
      - apply normalize_lengthSq. exact Hne. }
    set (r := Vector3.normalize (Vector3.crossVectors tangent worldUp)).
    assert (Hr : right b = r).
    { unfold b, basis. cbv zeta. simpl.
      apply ltb_false in Hq. rewrite Hq. reflexivity. }
    assert (HR : Vector3.lengthSq r = 1) by (apply normalize_lengthSq; lra).
    assert (HrT : Vector3.dot r tangent = 0).
    { unfold r. destruct (normalize_scales (Vector3.crossVectors tangent worldUp)) as [k ->].
      rewrite dot_multiplyScalar_l, dot_crossVectors_l. ring. }
    assert (HU : Vector3.lengthSq (Vector3.crossVectors r tangent) = 1)
      by (rewrite lengthSq_crossVectors, HR, HT, HrT; ring).
    assert (Hu : baseUp b = Vector3.crossVectors r tangent).
    { unfold b, basis. cbv zeta. simpl.
      apply ltb_false in Hq. rewrite Hq. fold r. apply normalize_unit, HU. }
    assert (Hup : upVector b = Vector3.applyAxisAngle (baseUp b) tangent (tilt * PI / 180))
      by reflexivity.
    rewrite Hr, Hu. repeat split.
    + apply length_unit, HT.
    + apply length_unit, HR.
    + apply length_unit, HU.
    + exact HrT.
    + apply dot_crossVectors_r.
    + rewrite dot_comm. apply dot_crossVectors_l.
    + apply crossVectors_back; [exact HT | rewrite dot_comm; exact HrT].
    + rewrite crossVectors_swap.
      apply crossVectors_back; [exact HR | exact HrT].
    + intros ->. rewrite Hup, Hu. replace (0 * PI / 180) with 0 by lra.
      apply applyAxisAngle_0.
  - intros Hq. unfold b, basis. cbv zeta. simpl.
    apply ltb_true in Hq. rewrite Hq.
    apply normalize_unit. unfold Vector3.lengthSq. simpl. ring.
Qed.

(** ** Further properties of the component *)

(** *** Speed and progress *)

Lemma speedStep_speed (st : Store) (firstPeakT c : R) (w : World) :
  snd (speedStep st firstPeakT c w)
  = if hasChainLift st && ltb (rideProgress st) firstPeakT
    then 0.9 * rideSpeed st
    else Rmax 1.0 (sqrt (2 * 9.8 * Rmax 0 (Rmax (maxHeightReached (refs w)) c - c)))
         * rideSpeed st.
Proof. unfold speedStep. destruct (_ && _); reflexivity. Qed.

Lemma speedStep_at_least_chain (st : Store) (firstPeakT c : R) (w : World) :
  0 <= rideSpeed st ->
  0.9 * rideSpeed st <= snd (speedStep st firstPeakT c w).
Proof.
  intros Hs. rewrite speedStep_speed. destruct (_ && _); [lra|].
  pose proof (Rmax_l 1.0 (sqrt (2 * 9.8 * Rmax 0 (Rmax (maxHeightReached (refs w)) c - c)))).
  nra.
Qed.

(** X1.  With a positive speed scale, frame time and track length, a frame's
    [newProgress] lies strictly ahead of the progress it started from: by at
    least the chain-lift advance [0.9 * rideSpeed * delta / curveLength],
    whichever branch computed the speed. *)
Theorem progress_advances
  (st : Store) (firstPeakT delta : R) (curve : Curve) (w : World) :
  0 < rideSpeed st ->
  0 < delta ->
  0 < getLength curve ->
  rideProgress st + (0.9 * rideSpeed st * delta) / getLength curve
  <= snd (integrate st firstPeakT delta curve w) /\
  rideProgress st < snd (integrate st firstPeakT delta curve w).
Proof.
  intros Hs Hd Hl. rewrite integrate_progress.
  set (v := snd (speedStep st firstPeakT (Vector3.y (getPoint curve (rideProgress st))) w)).
  assert (Hv : 0.9 * rideSpeed st <= v)
    by (apply speedStep_at_least_chain; lra).
  assert (Hi : 0 < / getLength curve) by (apply Rinv_0_lt_compat; exact Hl).
  unfold Rdiv.
  assert (Hstep : 0.9 * rideSpeed st * delta * / getLength curve
                  <= v * delta * / getLength curve).
  { apply Rmult_le_compat_r; [lra|]. apply Rmult_le_compat_r; lra. }
  assert (Hpos : 0 < 0.9 * rideSpeed st * delta * / getLength curve).
  { apply Rmult_lt_0_compat; [|exact Hi]. apply Rmult_lt_0_compat; lra. }
  lra.
Qed.

Lemma frame_calls
  (st : Store) (firstPeakT delta : R) (curve : Curve) (w : World) :
  isRiding st = true ->
  curveRef (refs w) = Some curve ->
  calls (frame st firstPeakT delta w)
  = calls w ++
    [if geb (snd (integrate st firstPeakT delta curve w)) 1
     then if isLooped st
          then SetRideProgress (js_rem (snd (integrate st firstPeakT delta curve w)) 1)
          else StopRide
     else SetRideProgress (snd (integrate st firstPeakT delta curve w))].
Proof.
  intros Hr Hc.
  destruct (geb (snd (integrate st firstPeakT delta curve w)) 1) eqn:Hge.
  - apply geb_true in Hge. destruct (isLooped st) eqn:Hl.
    + rewrite (frame_wrap _ _ _ _ curve Hr Hc Hl Hge), follow_calls, integrate_world.
      destruct (hasChainLift st); reflexivity.
    + rewrite (frame_stop _ _ _ _ curve Hr Hc Hl Hge), integrate_world. reflexivity.
  - apply geb_false in Hge.
    rewrite (frame_inside _ _ _ _ curve Hr Hc Hge), follow_calls, integrate_world.
    reflexivity.
Qed.

(** X2.  A frame of a ride in progress invokes exactly one store action:
    [stopRide] when the track is open and [newProgress] is 1 or more, and
    [setRideProgress] otherwise, with [newProgress] itself below 1 and with
    [newProgress % 1] on a looped track from 1 on. *)
Theorem frame_one_store_call
  (st : Store) (firstPeakT delta : R) (curve : Curve) (w : World) :
  isRiding st = true ->
  curveRef (refs w) = Some curve ->
  let newProgress := snd (integrate st firstPeakT delta curve w) in
  let w' := frame st firstPeakT delta w in
  (newProgress < 1 -> calls w' = calls w ++ [SetRideProgress newProgress]) /\
  (1 <= newProgress -> isLooped st = true ->
   calls w' = calls w ++ [SetRideProgress (js_rem newProgress 1)]) /\
  (1 <= newProgress -> isLooped st = false -> calls w' = calls w ++ [StopRide]).
Proof.
  intros Hr Hc newProgress w'. unfold w'.
  rewrite (frame_calls _ _ _ curve w Hr Hc). fold newProgress. repeat split.
  - intros Hlt. apply geb_false in Hlt. rewrite Hlt. reflexivity.
  - intros Hge ->. apply geb_true in Hge. rewrite Hge. reflexivity.
  - intros Hge ->. apply geb_true in Hge. rewrite Hge. reflexivity.
Qed.

(** X3.  From a progress that is not negative, with speed scale and frame time
    not negative and a track of positive length, whatever progress a frame
    writes lies in [0, 1): the store never receives a progress of 1 or more,
    however long the frame took. *)
Theorem written_progress_in_unit_interval
  (st : Store) (firstPeakT delta : R) (curve : Curve) (w : World) :
  isRiding st = true ->
  curveRef (refs w) = Some curve ->
  0 <= rideProgress st ->
  0 <= rideSpeed st ->
  0 <= delta ->
  0 < getLength curve ->
  forall p : R,
    In (SetRideProgress p) (calls (frame st firstPeakT delta w)) ->
    In (SetRideProgress p) (calls w) \/ 0 <= p < 1.
Proof.
  intros Hr Hc Hp Hs Hd Hl p Hin.
  set (np := snd (integrate st firstPeakT delta curve w)).
  assert (Hnp : 0 <= np).
  { unfold np. rewrite integrate_progress.
    set (c := Vector3.y (getPoint curve (rideProgress st))).
    pose proof (speedStep_at_least_chain st firstPeakT c w Hs) as Hv.
    assert (Hi : 0 < / getLength curve) by (apply Rinv_0_lt_compat; exact Hl).
    assert (0 <= snd (speedStep st firstPeakT c w) * delta / getLength curve).
    { unfold Rdiv. apply Rmult_le_pos; [|lra]. apply Rmult_le_pos; lra. }
    lra. }
  rewrite (frame_calls _ _ _ curve w Hr Hc) in Hin. fold np in Hin.
  apply in_app_or in Hin. destruct Hin as [Hin | [Heq | []]]; [left; exact Hin|].
  right. destruct (geb np 1) eqn:Hge.
  - destruct (isLooped st); [|discriminate Heq].
    injection Heq as <-. apply js_rem_1_range. exact Hnp.
  - apply geb_false in Hge. injection Heq as <-. lra.
Qed.

(** X4.  Unless the frame closes a lap of a looped track with a chain lift,
    [maxHeightReached] never goes down in a frame; and after a frame of a ride
    in progress that does not reset it, it is at least the height the frame
    started from. *)
Theorem maxHeightReached_never_falls
  (st : Store) (firstPeakT delta : R) (w : World) :
  isLooped st = false \/ hasChainLift st = false ->
  maxHeightReached (refs w) <= maxHeightReached (refs (frame st firstPeakT delta w)) /\
  (forall curve : Curve,
     isRiding st = true -> curveRef (refs w) = Some curve ->
     Vector3.y (getPoint curve (rideProgress st))
     <= maxHeightReached (refs (frame st firstPeakT delta w))).
Proof.
  intros Hcase.
  assert (Hmax : forall curve : Curve,
             isRiding st = true -> curveRef (refs w) = Some curve ->
             maxHeightReached (refs (frame st firstPeakT delta w))
             = Rmax (maxHeightReached (refs w)) (Vector3.y (getPoint curve (rideProgress st)))).
  { intros curve Hr Hc.
    destruct (Rlt_dec (snd (integrate st firstPeakT delta curve w)) 1) as [Hlt | Hge].
    - rewrite (frame_inside _ _ _ _ curve Hr Hc Hlt), follow_maxHeightReached,
        integrate_world. reflexivity.
    - assert (Hge' : 1 <= snd (integrate st firstPeakT delta curve w)) by lra.
      destruct (isLooped st) eqn:Hloop.
      + destruct Hcase as [Hcase | Hcase]; [discriminate Hcase|].
        rewrite (frame_wrap _ _ _ _ curve Hr Hc Hloop Hge'), follow_maxHeightReached,
          Hcase, integrate_world. reflexivity.
      + rewrite (frame_stop _ _ _ _ curve Hr Hc Hloop Hge'), integrate_world.
        reflexivity. }
  split.
  - destruct (isRiding st) eqn:Hr; [|rewrite frame_idle by (left; exact Hr); lra].
    destruct (curveRef (refs w)) as [curve|] eqn:Hc;
      [|rewrite frame_idle by (right; exact Hc); lra].
    rewrite (Hmax curve eq_refl eq_refl). apply Rmax_l.
  - intros curve Hr Hc. rewrite (Hmax curve Hr Hc). apply Rmax_r.
Qed.

(** X5.  In the gravity phase a frame that starts lower is not slower: with
    the same [maxHeightReached] and a speed scale that is not negative, the
    speed does not fall when the current height falls. *)
Theorem gravity_speed_monotone (st : Store) (firstPeakT c1 c2 : R) (w : World) :
  hasChainLift st = false \/ firstPeakT <= rideProgress st ->
  0 <= rideSpeed st ->
  c1 <= c2 ->
  snd (speedStep st firstPeakT c2 w) <= snd (speedStep st firstPeakT c1 w).
Proof.
  intros Hphase Hs Hc. rewrite !speedStep_speed.
  replace (hasChainLift st && ltb (rideProgress st) firstPeakT) with false.
  2:{ symmetry. apply andb_false_iff.
      destruct Hphase as [H | H]; [left; exact H | right; apply ltb_false; exact H]. }
  set (m := maxHeightReached (refs w)).
  assert (Hdrop : Rmax 0 (Rmax m c2 - c2) <= Rmax 0 (Rmax m c1 - c1)).
  { unfold Rmax. repeat destruct (Rle_dec _ _); lra. }
  apply Rmult_le_compat_r; [exact Hs|].
  apply Rle_max_compat_l, sqrt_le_1_alt. lra.
Qed.

Lemma gravity_speed_cases (st : Store) (firstPeakT c : R) (w : World) :
  hasChainLift st = false \/ firstPeakT <= rideProgress st ->
  let drop := Rmax (maxHeightReached (refs w)) c - c in
  (2 * 9.8 * drop <= 1 -> snd (speedStep st firstPeakT c w) = rideSpeed st) /\
  (1 <= 2 * 9.8 * drop ->
   snd (speedStep st firstPeakT c w) = sqrt (2 * 9.8 * drop) * rideSpeed st).
Proof.
  intros Hphase drop. rewrite speedStep_speed.
  replace (hasChainLift st && ltb (rideProgress st) firstPeakT) with false.
  2:{ symmetry. apply andb_false_iff.
      destruct Hphase as [H | H]; [left; exact H | right; apply ltb_false; exact H]. }
  fold drop.
  assert (Hd : 0 <= drop) by (unfold drop; pose proof (Rmax_r (maxHeightReached (refs w)) c); lra).
  rewrite (Rmax_right 0 drop Hd). split; intros H.
  - assert (He : sqrt (2 * 9.8 * drop) <= 1)
      by (rewrite <- sqrt_1; apply sqrt_le_1_alt; exact H).
    rewrite Rmax_left by lra. lra.
  - assert (He : 1 <= sqrt (2 * 9.8 * drop))
      by (rewrite <- sqrt_1 at 1; apply sqrt_le_1_alt; exact H).
    rewrite Rmax_right by lra. reflexivity.
Qed.

(** X6.  In the gravity phase the floor decides the speed exactly while the
    drop below [maxHeightReached] is at most [1 / 19.6]: there the speed is
    [rideSpeed]; from that drop on it is [sqrt (2 * 9.8 * drop) * rideSpeed]. *)
Theorem floor_speed_threshold (st : Store) (firstPeakT c : R) (w : World) :
  hasChainLift st = false \/ firstPeakT <= rideProgress st ->
  let drop := Rmax (maxHeightReached (refs w)) c - c in
  (drop <= 1 / 19.6 -> snd (speedStep st firstPeakT c w) = rideSpeed st) /\
  (1 / 19.6 <= drop ->
   snd (speedStep st firstPeakT c w) = sqrt (2 * 9.8 * drop) * rideSpeed st).
Proof.
  intros Hphase drop.
  destruct (gravity_speed_cases st firstPeakT c w Hphase) as [Hlow Hhigh].
  fold drop in Hlow, Hhigh.
  split; intros H; [apply Hlow | apply Hhigh]; lra.
Qed.

(** X7.  The start of a ride and its first frame: once the riding effect has
    run, a frame at progress 0 that is not on the chain lift moves at exactly
    [rideSpeed], whatever [maxHeightReached] held before: [newProgress] is
    [rideSpeed * delta / curveLength]. *)
Theorem ride_start_speed
  (st : Store) (firstPeakT delta : R) (curve : Curve) (w : World) :
  isRiding st = true ->
  curveRef (refs w) = Some curve ->
  rideProgress st = 0 ->
  hasChainLift st = false \/ firstPeakT <= rideProgress st ->
  maxHeightReached (refs (ridingEffect st w)) = Vector3.y (getPoint curve 0) /\
  snd (integrate st firstPeakT delta curve (ridingEffect st w))
  = (rideSpeed st * delta) / getLength curve.
Proof.
  intros Hr Hc Hp Hphase.
  assert (Hstart : maxHeightReached (refs (ridingEffect st w)) = Vector3.y (getPoint curve 0))
    by (unfold ridingEffect; rewrite Hr, Hc; reflexivity).
  split; [exact Hstart|].
  rewrite integrate_progress.
  destruct (gravity_speed_cases st firstPeakT (Vector3.y (getPoint curve (rideProgress st)))
              (ridingEffect st w) Hphase) as [Hlow _].
  rewrite Hlow.
  - rewrite Hp. lra.
  - rewrite Hstart, Hp. rewrite Rmax_left by lra. lra.
Qed.

(** *** Looking ahead *)

Lemma js_rem_1_below (a : R) : 0 <= a < 1 -> js_rem a 1 = a.
Proof.
  intros Ha. rewrite js_rem_1_frac by lra. unfold frac_part.
  replace (Int_part a) with 0%Z; [simpl; lra|].
  apply Int_part_spec. simpl. lra.
Qed.

Lemma js_rem_1_lap (a : R) : 1 <= a < 2 -> js_rem a 1 = a - 1.
Proof.
  intros Ha. rewrite js_rem_1_frac by lra. unfold frac_part.
  replace (Int_part a) with 1%Z; [simpl; lra|].
  apply Int_part_spec. simpl. lra.
Qed.

(** X8.  The look-ahead parameter.  On an open track it is never above 0.999:
    it is [newProgress + 0.03] up to 0.969 and 0.999 from there on, so past
    0.999 the camera is turned to a point behind it.  On a looped track it
    stays in [0, 1): [newProgress + 0.03] below 0.97, and one lap less from
    0.97 on. *)
Theorem lookAheadT_range (st : Store) (newProgress : R) :
  (isLooped st = false ->
   lookAheadT st newProgress <= 0.999 /\
   (newProgress <= 0.969 -> lookAheadT st newProgress = newProgress + 0.03) /\
   (0.969 <= newProgress -> lookAheadT st newProgress = 0.999) /\
   (0.999 < newProgress -> lookAheadT st newProgress < newProgress)) /\
  (isLooped st = true ->
   0 <= newProgress ->
   0 <= lookAheadT st newProgress < 1 /\
   (newProgress < 0.97 -> lookAheadT st newProgress = newProgress + 0.03) /\
   (0.97 <= newProgress < 1 -> lookAheadT st newProgress = newProgress + 0.03 - 1)).
Proof.
  unfold lookAheadT. split; intros ->.
  - repeat split.
    + apply Rmin_r.
    + intros H. apply Rmin_left. lra.
    + intros H. apply Rmin_right. lra.
    + intros H. rewrite Rmin_right by lra. lra.
  - intros H0. repeat split.
    + apply js_rem_1_range. lra.
    + apply js_rem_1_range. lra.
    + intros H. apply js_rem_1_below. lra.
    + intros H. apply js_rem_1_lap. lra.
Qed.

(** *** Banking *)

(** Turning about an axis leaves the part along the axis alone ... *)
Lemma applyAxisAngle_dot_axis (v axis : Vector3.t) (angle : R) :
  Vector3.dot (Vector3.applyAxisAngle v axis angle) axis = Vector3.dot v axis.
Proof. unfold Vector3.applyAxisAngle, Vector3.dot. cbv zeta. simpl. ring. Qed.

(** ... and, about a unit axis, the length. *)
Lemma applyAxisAngle_lengthSq (v axis : Vector3.t) (angle : R) :
  Vector3.lengthSq axis = 1 ->
  Vector3.lengthSq (Vector3.applyAxisAngle v axis angle) = Vector3.lengthSq v.
Proof.
  intros Haxis.
  pose proof (sin2_cos2 (angle / 2)) as Htrig. unfold Rsqr in Htrig.
  assert (Hid :
    Vector3.lengthSq (Vector3.applyAxisAngle v axis angle)
    = Vector3.lengthSq v
      + 4 * (sin (angle / 2) * sin (angle / 2))
        * Vector3.lengthSq (Vector3.crossVectors axis v)
        * (cos (angle / 2) * cos (angle / 2)
           + sin (angle / 2) * sin (angle / 2) * Vector3.lengthSq axis - 1)).
  { unfold Vector3.applyAxisAngle, Vector3.lengthSq, Vector3.crossVectors.
    cbv zeta. simpl. ring. }
  rewrite Hid, Haxis.
  replace (cos (angle / 2) * cos (angle / 2) + sin (angle / 2) * sin (angle / 2) * 1 - 1)
    with 0 by lra.
  ring.
Qed.

Lemma basis_baseUp (tangent : Vector3.t) (tilt : R) :
  Vector3.lengthSq tangent = 1 ->
  Vector3.lengthSq (baseUp (basis tangent tilt)) = 1 /\
  Vector3.dot (baseUp (basis tangent tilt)) tangent = 0.
Proof.
  intros HT. unfold basis. cbv zeta. simpl.
  set (r := Vector3.normalize
              (if ltb (Vector3.lengthSq (Vector3.crossVectors tangent worldUp)) 0.001
               then Vector3.mk 1 0 0
               else Vector3.crossVectors tangent worldUp)).
  assert (Hcross : Vector3.lengthSq (Vector3.crossVectors r tangent) <> 0).
  { unfold r.
    destruct (ltb (Vector3.lengthSq (Vector3.crossVectors tangent worldUp)) 0.001) eqn:Hq.
    - apply ltb_true in Hq.
      rewrite normalize_unit by (unfold Vector3.lengthSq; simpl; ring).
      destruct tangent as [tx ty tz].
      unfold Vector3.lengthSq, Vector3.crossVectors, worldUp in *. simpl in *.
      pose proof (Rle_0_sqr tx). pose proof (Rle_0_sqr ty). pose proof (Rle_0_sqr tz).
      unfold Rsqr in *. lra.
    - apply ltb_false in Hq.
      set (c := Vector3.crossVectors tangent worldUp) in *.
      assert (HR : Vector3.lengthSq (Vector3.normalize c) = 1)
        by (apply normalize_lengthSq; lra).
      assert (HrT : Vector3.dot (Vector3.normalize c) tangent = 0).
      { destruct (normalize_scales c) as [k ->].
        rewrite dot_multiplyScalar_l. unfold c. rewrite dot_crossVectors_l. ring. }
      rewrite lengthSq_crossVectors, HR, HT, HrT. lra. }
  split.
  - apply normalize_lengthSq, Hcross.
  - destruct (normalize_scales (Vector3.crossVectors r tangent)) as [k ->].
    rewrite dot_multiplyScalar_l, dot_crossVectors_r. ring.
Qed.

(** X9.  Wherever the curve has a tangent that is not zero, and for every tilt,
    [baseUp] and the banked [upVector] are unit vectors orthogonal to the
    tangent: also on the vertical sections that use the fallback [right]. *)
Theorem upVector_unit_normal (g : Vector3.t) (tilt : R) :
  Vector3.lengthSq g <> 0 ->
  let tangent := Vector3.normalize g in
  let b := basis tangent tilt in
  Vector3.length (baseUp b) = 1 /\
  Vector3.dot (baseUp b) tangent = 0 /\
  Vector3.length (upVector b) = 1 /\
  Vector3.dot (upVector b) tangent = 0.
Proof.
  intros Hg tangent b.
  assert (HT : Vector3.lengthSq tangent = 1) by (apply normalize_lengthSq, Hg).
  destruct (basis_baseUp tangent tilt HT) as [Hlen Hdot]. fold b in Hlen, Hdot.
  assert (Hup : upVector b = Vector3.applyAxisAngle (baseUp b) tangent (tilt * PI / 180))
    by reflexivity.
  repeat split.
  - apply length_unit, Hlen.
  - exact Hdot.
  - apply length_unit. rewrite Hup, applyAxisAngle_lengthSq; assumption.
  - rewrite Hup, applyAxisAngle_dot_axis. exact Hdot.
Qed.

(** *** The camera *)

Lemma frameUp_unit (st : Store) (curve : Curve) (p : R) :
  Vector3.lengthSq (getTangent curve p) <> 0 ->
  Vector3.lengthSq (frameUp st curve p) = 1.
Proof.
  intros Hg. unfold frameUp. cbv zeta.
  set (tangent := Vector3.normalize (getTangent curve p)).
  set (tilt := getTrackTiltAtProgress (trackPoints st) p (isLooped st)).
  assert (HT : Vector3.lengthSq tangent = 1) by (apply normalize_lengthSq, Hg).
  destruct (basis_baseUp tangent tilt HT) as [Hlen _].
  change (upVector (basis tangent tilt))
    with (Vector3.applyAxisAngle (baseUp (basis tangent tilt)) tangent (tilt * PI / 180)).
  rewrite applyAxisAngle_lengthSq; assumption.
Qed.

Lemma distanceTo_offset (a u : Vector3.t) (k : R) :
  0 <= k ->
  Vector3.lengthSq u = 1 ->
  Vector3.distanceTo (Vector3.add a (Vector3.multiplyScalar u k)) a = k.
Proof.
  intros Hk Hu. unfold Vector3.distanceTo, Vector3.add, Vector3.multiplyScalar. simpl.
  unfold Vector3.lengthSq in Hu.
  replace (_ + _ + _)
    with (k * k * (Vector3.x u * Vector3.x u + Vector3.y u * Vector3.y u
                   + Vector3.z u * Vector3.z u)) by ring.
  rewrite Hu, Rmult_1_r. apply sqrt_square, Hk.
Qed.

(** X10.  Wherever the curve has a tangent that is not zero, the pose the
    camera is steered to sits exactly [cameraHeight = 1.5] from the track point
    at [newProgress], and the point it is turned to sits exactly
    [1.5 * 0.8] from the track point at the look-ahead parameter, whatever the
    tilt. *)
Theorem camera_target_offset (st : Store) (curve : Curve) (newProgress : R) :
  Vector3.lengthSq (getTangent curve newProgress) <> 0 ->
  Vector3.distanceTo (targetCameraPos st curve newProgress) (getPoint curve newProgress)
  = 1.5 /\
  Vector3.distanceTo (targetLookAt st curve newProgress)
                     (getPoint curve (lookAheadT st newProgress))
  = 1.5 * 0.8.
Proof.
  intros Hg. pose proof (frameUp_unit st curve newProgress Hg) as Hu.
  unfold targetCameraPos, targetLookAt, cameraHeight. cbv zeta.
  split; apply distanceTo_offset; try exact Hu; lra.
Qed.

(** X11.  Where the curve hands out the zero vector as its tangent, the up
    vector is the zero vector as well: the camera is steered onto the track
    point itself, and turned to the track point at the look-ahead parameter. *)
Theorem zero_tangent_no_offset (st : Store) (curve : Curve) (newProgress : R) :
  getTangent curve newProgress = Vector3.zero ->
  frameUp st curve newProgress = Vector3.zero /\
  targetCameraPos st curve newProgress = getPoint curve newProgress /\
  targetLookAt st curve newProgress = getPoint curve (lookAheadT st newProgress).
Proof.
  intros Hg.
  assert (Hup : frameUp st curve newProgress = Vector3.zero).
  { unfold frameUp. cbv zeta. rewrite Hg.
    rewrite (normalize_zero Vector3.zero) by (unfold Vector3.lengthSq; simpl; ring).
    unfold basis. cbv zeta. simpl.
    replace (ltb (Vector3.lengthSq (Vector3.crossVectors Vector3.zero worldUp)) 0.001)
      with true
      by (symmetry; apply ltb_true; unfold Vector3.lengthSq; simpl; lra).
    rewrite (normalize_unit (Vector3.mk 1 0 0)) by (unfold Vector3.lengthSq; simpl; ring).
    rewrite normalize_zero by (unfold Vector3.lengthSq; simpl; ring).
    unfold Vector3.applyAxisAngle, Vector3.zero. simpl. f_equal; ring. }
  split; [exact Hup|].
  unfold targetCameraPos, targetLookAt. cbv zeta. rewrite Hup.
  split.
  - destruct (getPoint curve newProgress) as [a b c].
    unfold Vector3.add, Vector3.multiplyScalar. simpl. f_equal; ring.
  - destruct (getPoint curve (lookAheadT st newProgress)) as [a b c].
    unfold Vector3.add, Vector3.multiplyScalar. simpl. f_equal; ring.
Qed.

Lemma lerp_moves_quarter (previous target : Vector3.t) :
  Vector3.distanceTo (Vector3.lerp previous target 0.25) previous
  = 0.25 * Vector3.distanceTo previous target.
Proof.
  unfold Vector3.distanceTo, Vector3.lerp. simpl.
  set (dx := Vector3.x previous - Vector3.x target).
  set (dy := Vector3.y previous - Vector3.y target).
  set (dz := Vector3.z previous - Vector3.z target).
  replace (_ + _ + _) with ((0.25 * 0.25) * (dx * dx + dy * dy + dz * dz))
    by (unfold dx, dy, dz; lra).
  rewrite sqrt_mult; [|lra|apply sum_squares_nonneg].
  rewrite sqrt_square by lra. reflexivity.
Qed.

(** X12.  Every frame that writes a progress leaves the camera on the smoothed
    pose: its position is the new [previousCameraPos] and it is turned to the
    new [previousLookAt].  The smoothed position has moved a quarter of the
    way to its target in a straight line: it is a quarter of the old distance
    from where it was and three quarters of it from the target. *)
Theorem follow_camera_pose (st : Store) (curve : Curve) (newProgress : R) (w : World) :
  let w' := follow st curve newProgress w in
  let target := targetCameraPos st curve newProgress in
  position (camera w') = previousCameraPos (refs w') /\
  lookedAt (camera w') = previousLookAt (refs w') /\
  Vector3.distanceTo (position (camera w')) (previousCameraPos (refs w))
  = 0.25 * Vector3.distanceTo (previousCameraPos (refs w)) target /\
  Vector3.distanceTo (position (camera w')) target
  = 0.75 * Vector3.distanceTo (previousCameraPos (refs w)) target.
Proof.
  intros w' target. unfold w', follow, target. cbv zeta. simpl.
  repeat split.
  - apply lerp_moves_quarter.
  - apply lerp_contracts.
Qed.

(** *** More on the climb-peak scan *)

(** X13.  With 2 track points or more and a curve, [firstPeakT] is at least
    0.01 (and at most 0.5): only a degenerate track gives 0.  So with a chain
    lift a ride is on the lift on every frame that starts below 0.01, at the
    start of the track in particular. *)
Theorem firstPeakT_positive (st : Store) (curve : Curve) :
  (2 <= List.length (trackPoints st))%nat ->
  getTrackCurve (trackPoints st) (isLooped st) = Some curve ->
  exists r : R,
    firstPeakT st = Some r /\ 0.01 <= r <= 0.5 /\
    forall (c : R) (w : World),
      hasChainLift st = true -> rideProgress st < 0.01 ->
      snd (speedStep st r c w) = 0.9 * rideSpeed st.
Proof.
  intros Hlen Hcurve.
  destruct (scan_result curve) as (s & n & Hscan & Hn & Hs & Hrange).
  exists (if gtb (peakT s) 0 then peakT s else 0.2).
  assert (Hlow : 0.01 <= (if gtb (peakT s) 0 then peakT s else 0.2)).
  { destruct (gtb (peakT s) 0) eqn:Hpos; [|lra].
    apply gtb_true in Hpos. unfold scanned in Hs.
    destruct (maxHeight s) as [h|].
    - destruct Hs as (_ & p & _ & HpT & _).
      rewrite HpT in *. unfold sample in *.
      destruct p as [|p]; [simpl in Hpos; lra|].
      rewrite S_INR. pose proof (pos_INR p). lra.
    - destruct Hs as (_ & H0 & _). lra. }
  repeat split.
  - unfold firstPeakT, firstPeakT_fuel.
    apply Nat.ltb_ge in Hlen. rewrite Hlen, Hcurve, Hscan. reflexivity.
  - exact Hlow.
  - destruct (gtb (peakT s) 0); lra.
  - intros c w Hlift Hp. rewrite speedStep_speed, Hlift. simpl.
    replace (ltb (rideProgress st) (if gtb (peakT s) 0 then peakT s else 0.2)) with true;
      [reflexivity|].
    symmetry. apply ltb_true. lra.
Qed.

Lemma scanBody_before_climb (curve : Curve) (t : R) :
  Vector3.y (getTangent curve t) <= 0.1 ->
  scanBody curve t scanStart = (scanStart, false).
Proof.
  intros H. unfold scanBody. cbv zeta.
  apply gtb_false in H. rewrite H. reflexivity.
Qed.

Lemma scanBody_rise (curve : Curve) (t : R) (s : Scan) :
  foundClimb s = true \/ Vector3.y (getTangent curve t) > 0.1 ->
  aboveMax (Vector3.y (getPoint curve t)) (maxHeight s) = true ->
  scanBody curve t s = (mkScan (Some (Vector3.y (getPoint curve t))) t true, false).
Proof.
  intros Hclimb Hup. unfold scanBody. cbv zeta.
  assert (Hself : gtb t t = false) by (apply gtb_false; lra).
  destruct (gtb (Vector3.y (getTangent curve t)) 0.1) eqn:Htan; simpl.
  - rewrite Hup. simpl. rewrite Hself, andb_false_r. reflexivity.
  - destruct Hclimb as [Hf | Hgt]; [|apply gtb_true in Hgt; congruence].
    rewrite Hf, Hup. simpl. rewrite Hself, andb_false_r. reflexivity.
Qed.

Lemma scanBody_break (curve : Curve) (t h tp : R) :
  Vector3.y (getTangent curve t) < -0.1 ->
  Vector3.y (getPoint curve t) <= h ->
  tp < t ->
  scanBody curve t (mkScan (Some h) tp true) = (mkScan (Some h) tp true, true).
Proof.
  intros Htan Hh Ht. unfold scanBody. cbv zeta.
  replace (gtb (Vector3.y (getTangent curve t)) 0.1) with false
    by (symmetry; apply gtb_false; lra).
  simpl.
  replace (gtb (Vector3.y (getPoint curve t)) h) with false
    by (symmetry; apply gtb_false; exact Hh).
  simpl.
  replace (ltb (Vector3.y (getTangent curve t)) (-0.1)) with true
    by (symmetry; apply ltb_true; exact Htan).
  replace (gtb t tp) with true by (symmetry; apply gtb_true; lra).
  reflexivity.
Qed.

(** The scan from the sample after [j], on a rise up to [p] that sample [p + 1]
    ends. *)
Lemma scanLoop_rise (curve : Curve) (p d j : nat) :
  (j + d = p)%nat ->
  (p < 50)%nat ->
  (forall k : nat, (j <= k < p)%nat -> height curve k < height curve (S k)) ->
  height curve (S p) <= height curve p ->
  Vector3.y (getTangent curve (sample (S p))) < -0.1 ->
  scanLoop (S (S d)) curve (sample (S j)) (mkScan (Some (height curve j)) (sample j) true)
  = Some (mkScan (Some (height curve p)) (sample p) true).
Proof.
  revert j. induction d as [|d IH]; intros j Hj Hp Hrise Htop Hdesc.
  - assert (j = p) by lia. subst j. rewrite scanLoop_S.
    destruct (Rle_dec (sample (S p)) 0.5) as [_|Hout];
      [|exfalso; apply Hout, sample_le_half; lia].
    rewrite scanBody_break; [reflexivity | exact Hdesc | exact Htop |].
    rewrite sample_S. lra.
  - rewrite scanLoop_S.
    destruct (Rle_dec (sample (S j)) 0.5) as [_|Hout];
      [|exfalso; apply Hout, sample_le_half; lia].
    rewrite scanBody_rise.
    + fold (height curve (S j)). rewrite <- sample_S.
      apply IH; try assumption; [lia|].
      intros k Hk. apply Hrise. lia.
    + left. reflexivity.
    + simpl. apply gtb_true. fold (height curve (S j)). apply Rlt_gt, Hrise. lia.
Qed.

(** The scan from sample [j], before the first climbing sample [i]. *)
Lemma scanLoop_hill (curve : Curve) (i p d j : nat) :
  (j + d = i)%nat ->
  (i <= p)%nat ->
  (p < 50)%nat ->
  (forall k : nat, (k < i)%nat -> ~ climbs curve k) ->
  climbs curve i ->
  (forall k : nat, (i <= k < p)%nat -> height curve k < height curve (S k)) ->
  height curve (S p) <= height curve p ->
  Vector3.y (getTangent curve (sample (S p))) < -0.1 ->
  scanLoop (S d + S (S (p - i))) curve (sample j) scanStart
  = Some (mkScan (Some (height curve p)) (sample p) true).
Proof.
  revert j. induction d as [|d IH]; intros j Hj Hip Hp Hflat Hclimb Hrise Htop Hdesc.
  - assert (j = i) by lia. subst j.
    change (1 + S (S (p - i)))%nat with (S (S (S (p - i)))). rewrite scanLoop_S.
    destruct (Rle_dec (sample i) 0.5) as [_|Hout];
      [|exfalso; apply Hout, sample_le_half; lia].
    rewrite scanBody_rise; [|right; exact Hclimb|reflexivity].
    fold (height curve i). rewrite <- sample_S.
    apply scanLoop_rise; try assumption. lia.
  - change (S (S d) + S (S (p - i)))%nat with (S (S d + S (S (p - i)))).
    rewrite scanLoop_S.
    destruct (Rle_dec (sample j) 0.5) as [_|Hout];
      [|exfalso; apply Hout, sample_le_half; lia].
    rewrite scanBody_before_climb.
    + rewrite <- sample_S. apply IH; try assumption. lia.
    + assert (Hno : ~ climbs curve j) by (apply Hflat; lia).
      unfold climbs in Hno. lra.
Qed.

(** X14.  The crest of a first hill.  Let sample [i] be the first that climbs,
    let the sampled heights rise strictly from sample [i] to a later sample
    [p] (with [1 <= p < 50]), and let sample [p + 1] be no higher and descend
    (its tangent falls by more than 0.1).  Then [firstPeakT] is [p * 0.01],
    whatever the curve does after sample [p + 1]: a higher hill further on
    does not count. *)
Theorem firstPeakT_first_crest (st : Store) (curve : Curve) (i p : nat) :
  (2 <= List.length (trackPoints st))%nat ->
  getTrackCurve (trackPoints st) (isLooped st) = Some curve ->
  (i <= p)%nat -> (1 <= p)%nat -> (p < 50)%nat ->
  (forall k : nat, (k < i)%nat -> ~ climbs curve k) ->
  climbs curve i ->
  (forall k : nat, (i <= k < p)%nat -> height curve k < height curve (S k)) ->
  height curve (S p) <= height curve p ->
  Vector3.y (getTangent curve (sample (S p))) < -0.1 ->
  firstPeakT st = Some (sample p).
Proof.
  intros Hlen Hcurve Hip H1 Hp Hflat Hclimb Hrise Htop Hdesc.
  pose proof (scanLoop_hill curve i p i 0 ltac:(lia) Hip Hp Hflat Hclimb Hrise Htop Hdesc)
    as Hrun.
  assert (H0 : sample 0 = 0) by (unfold sample; simpl; lra).
  rewrite H0 in Hrun.
  apply (scanLoop_fuel _ (49 - p)) in Hrun.
  replace (S i + S (S (p - i)) + (49 - p))%nat with 52%nat in Hrun by lia.
  unfold firstPeakT, firstPeakT_fuel.
  apply Nat.ltb_ge in Hlen. rewrite Hlen, Hcurve, Hrun. simpl peakT.
  replace (gtb (sample p) 0) with true; [reflexivity|].
  symmetry. apply gtb_true. unfold sample.
  assert (1 <= INR p) by (replace 1 with (INR 1) by reflexivity; apply le_INR; exact H1).
  lra.
Qed.

(** *** A track without a curve *)

(** X15.  Where [getTrackCurve] builds no curve for the track, the component
    stays put: [firstPeakT] is 0, and once the curve effect has run neither
    the riding effect nor any frame changes a thing, riding or not. *)
Theorem no_curve_no_ride (st : Store) (firstPeakT0 delta : R) (w : World) :
  getTrackCurve (trackPoints st) (isLooped st) = None ->
  firstPeakT st = Some 0 /\
  ridingEffect st (curveEffect st w) = curveEffect st w /\
  frame st firstPeakT0 delta (curveEffect st w) = curveEffect st w /\
  calls (frame st firstPeakT0 delta (curveEffect st w)) = calls w.
Proof.
  intros Hnone.
  assert (Href : curveRef (refs (curveEffect st w)) = None)
    by (unfold curveEffect; simpl; exact Hnone).
  assert (Hframe : frame st firstPeakT0 delta (curveEffect st w) = curveEffect st w)
    by (apply frame_idle; right; exact Href).
  repeat split.
  - unfold firstPeakT, firstPeakT_fuel. rewrite Hnone.
    destruct (List.length (trackPoints st) <? 2)%nat; reflexivity.
  - unfold ridingEffect. rewrite Href. destruct (isRiding st); reflexivity.
  - exact Hframe.
  - rewrite Hframe. reflexivity.
Qed.

End RideCamera.

Arguments mkStore {TrackPoint}.
Arguments trackPoints {TrackPoint}.
Arguments isRiding {TrackPoint}.
Arguments rideProgress {TrackPoint}.
Arguments rideSpeed {TrackPoint}.
Arguments isLooped {TrackPoint}.
Arguments hasChainLift {TrackPoint}.
Arguments speedStep {TrackPoint}.
Arguments integrate {TrackPoint}.
Arguments frame {TrackPoint}.
Arguments follow {TrackPoint}.
Arguments firstPeakT {TrackPoint}.

(** ** A ride on a ramp

    A straight track of length 10 that falls from height 5 to height 0, two
    track points, no banking; the ride starts with [maxHeightReached] at the
    start height. *)

Definition rampCurve : Curve :=
  mkCurve (fun t => Vector3.mk (10 * t) (5 - 5 * t) 0)
          (fun _ => Vector3.mk 1 (-0.5) 0)
          10.

Definition rampPoints : list Vector3.t := [Vector3.mk 0 5 0; Vector3.mk 10 0 0].

Definition rampTrack (points : list Vector3.t) (looped : bool) : option Curve :=
  Some rampCurve.

Definition rampTilt (points : list Vector3.t) (t : R) (looped : bool) : R := 0.

Definition rampStore (looped lift : bool) (progress : R) : Store Vector3.t :=
  mkStore rampPoints true progress 1 looped lift.

Definition rampWorld : World :=
  mkWorld (mkRefs (Some rampCurve) Vector3.zero Vector3.zero 5)
          (mkCamera Vector3.zero Vector3.zero)
          [].

Lemma ramp_gravity_phase (looped lift : bool) :
  hasChainLift (rampStore looped lift 0.95) && ltb (rideProgress (rampStore looped lift 0.95)) 0.2
  = false.
Proof. apply andb_false_iff. right. apply ltb_false. simpl. lra. Qed.

(** Past the peak at 0.2, a frame of one second from 0.95 reaches the end. *)
Lemma ramp_reaches_end (looped lift : bool) :
  1 <= 0.95 + snd (speedStep (rampStore looped lift 0.95) 0.2
                     (Vector3.y (getPoint rampCurve 0.95)) rampWorld) * 1 / 10.
Proof.
  pose proof (speedStep_floor _ (rampStore looped lift 0.95) 0.2
                (Vector3.y (getPoint rampCurve 0.95)) rampWorld
                (ramp_gravity_phase looped lift)) as H.
  simpl rideSpeed in H. lra.
Qed.

(** The same ride with [maxHeightReached] at 1, below the track. *)
Definition lowWorld : World :=
  mkWorld (mkRefs (Some rampCurve) Vector3.zero Vector3.zero 1)
          (mkCamera Vector3.zero Vector3.zero)
          [].

Lemma gravity_phase_speed_witness :
  maxHeightReached
    (refs (fst (speedStep (rampStore false false 0.5) 0.2 (5 - 5 * 0.5) lowWorld)))
  = Rmax 1 (5 - 5 * 0.5) /\
  maxHeightReached (refs (frame rampTilt (rampStore false false 0.5) 0.2 1 lowWorld))
  = Rmax 1 (5 - 5 * 0.5) /\
  1.0 <= Rmax 1.0 (sqrt (2 * 9.8 * Rmax 0 (Rmax 1 (5 - 5 * 0.5) - (5 - 5 * 0.5)))).
Proof.
  pose proof (gravity_phase_speed _ rampTilt (rampStore false false 0.5) 0.2 1 rampCurve
                lowWorld (or_introl eq_refl))
    as (_ & Hstored & _ & _ & _ & Hfloor & _ & _ & Hframe).
  split; [exact Hstored|]. split; [|exact Hfloor].
  apply Hframe; [reflexivity | reflexivity | left; reflexivity].
Defined.

Lemma chain_lift_speed_witness :
  snd (speedStep (rampStore false true 0.1) 0.2 4.5 lowWorld) = 0.9 * 1 /\
  maxHeightReached (refs (fst (speedStep (rampStore false true 0.1) 0.2 4.5 lowWorld)))
  = Rmax 1 4.5.
Proof.
  destruct (chain_lift_speed _ rampTilt (rampStore false true 0.1) 0.2 4.5 lowWorld eq_refl)
    as ((_ & Hspeed & Hstored) & _).
  - simpl. lra.
  - split; [exact Hspeed | exact Hstored].
Defined.

Lemma open_track_stop_witness :
  calls (frame rampTilt (rampStore false false 0.95) 0.2 1 rampWorld) = [StopRide].
Proof.
  apply (open_track_stop _ rampTilt (rampStore false false 0.95) 0.2 1 rampCurve rampWorld
           eq_refl eq_refl eq_refl).
  apply (ramp_reaches_end false false).
Defined.

Lemma open_track_stop_effect_witness :
  frame rampTilt (rampStore false false 0.95) 0.2 1 rampWorld
  = call StopRide (setMaxHeightReached (Rmax 5 (5 - 5 * 0.95)) rampWorld).
Proof.
  apply (open_track_stop_effect _ rampTilt (rampStore false false 0.95) 0.2 1
           rampCurve rampWorld eq_refl eq_refl eq_refl).
  rewrite integrate_progress. apply (ramp_reaches_end false false).
Defined.

Lemma looped_wrap_witness :
  maxHeightReached (refs (frame rampTilt (rampStore true true 0.95) 0.2 1 rampWorld)) = 5 - 5 * 0.
Proof.
  apply (looped_wrap _ rampTilt (rampStore true true 0.95) 0.2 1 rampCurve rampWorld
           eq_refl eq_refl eq_refl).
  - apply (ramp_reaches_end true true).
  - reflexivity.
Defined.

Lemma orientation_basis_witness :
  Vector3.length (right (basis (Vector3.normalize (Vector3.mk 1 0 0)) 0)) = 1.
Proof.
  apply (orientation_basis (Vector3.mk 1 0 0) 0).
  rewrite normalize_unit; unfold Vector3.lengthSq, Vector3.crossVectors, worldUp; simpl; lra.
Defined.


Arguments ridingEffect {TrackPoint}.
Arguments curveEffect {TrackPoint}.
Arguments targetCameraPos {TrackPoint}.
Arguments targetLookAt {TrackPoint}.
Arguments lookAheadT {TrackPoint}.
Arguments followAll {TrackPoint}.

(** ** More rides

    On the ramp with the chain lift, a frame of one second from 0.1 stays on
    the lift below the peak at 0.2. *)

Lemma ramp_chain_frame (looped : bool) :
  snd (integrate (rampStore looped true 0.1) 0.2 1 rampCurve rampWorld) = 0.19.
Proof.
  rewrite integrate_progress, speedStep_speed. simpl.
  replace (ltb 0.1 0.2) with true by (symmetry; apply ltb_true; lra).
  lra.
Qed.

(** A hill with its crest near 0.012, scanned at 0, 0.01, 0.02, ... *)
Definition hillCurve : Curve :=
  mkCurve (fun t => Vector3.mk t (- ((t - 0.012) * (t - 0.012))) 0)
          (fun t => Vector3.mk 1 (100 * (0.012 - t)) 0)
          1.

Definition hillTrack (points : list Vector3.t) (looped : bool) : option Curve :=
  Some hillCurve.

(** A curve shrunk to a point: its tangent is the zero vector. *)
Definition pointCurve : Curve :=
  mkCurve (fun _ => Vector3.mk 1 2 3) (fun _ => Vector3.zero) 0.

Definition noTrack (points : list Vector3.t) (looped : bool) : option Curve := None.


Lemma progress_advances_witness :
  0.5 < snd (integrate (rampStore false false 0.5) 0.2 1 rampCurve rampWorld).
Proof.
  apply (progress_advances _ (rampStore false false 0.5) 0.2 1 rampCurve rampWorld);
    simpl; lra.
Defined.

Lemma frame_one_store_call_witness :
  calls (frame rampTilt (rampStore false true 0.1) 0.2 1 rampWorld)
  = [SetRideProgress (snd (integrate (rampStore false true 0.1) 0.2 1 rampCurve rampWorld))].
Proof.
  apply (frame_one_store_call _ rampTilt (rampStore false true 0.1) 0.2 1 rampCurve
           rampWorld eq_refl eq_refl).
  rewrite ramp_chain_frame. lra.
Defined.

Lemma written_progress_in_unit_interval_witness :
  In (SetRideProgress 0.19) (calls rampWorld) \/ 0 <= 0.19 < 1.
Proof.
  apply (written_progress_in_unit_interval _ rampTilt (rampStore false true 0.1) 0.2 1
           rampCurve rampWorld eq_refl eq_refl); try (simpl; lra).
  rewrite (frame_calls _ rampTilt (rampStore false true 0.1) 0.2 1 rampCurve rampWorld
             eq_refl eq_refl).
  rewrite ramp_chain_frame.
  replace (geb 0.19 1) with false by (symmetry; apply geb_false; lra).
  simpl. left. reflexivity.
Defined.

Lemma maxHeightReached_never_falls_witness :
  5 <= maxHeightReached (refs (frame rampTilt (rampStore false false 0.5) 0.2 1 rampWorld)).
Proof.
  apply (maxHeightReached_never_falls _ rampTilt (rampStore false false 0.5) 0.2 1 rampWorld).
  left. reflexivity.
Defined.

Lemma gravity_speed_monotone_witness :
  snd (speedStep (rampStore false false 0.5) 0.2 2 rampWorld)
  <= snd (speedStep (rampStore false false 0.5) 0.2 1 rampWorld).
Proof.
  apply (gravity_speed_monotone _ (rampStore false false 0.5) 0.2 1 2 rampWorld);
    [left; reflexivity | simpl; lra | lra].
Defined.

Lemma floor_speed_threshold_witness :
  snd (speedStep (rampStore false false 0) 0.2 5 rampWorld) = 1.
Proof.
  apply (floor_speed_threshold _ (rampStore false false 0) 0.2 5 rampWorld).
  - left. reflexivity.
  - simpl. rewrite Rmax_left; lra.
Defined.

Lemma ride_start_speed_witness :
  snd (integrate (rampStore false false 0) 0.2 1 rampCurve
         (ridingEffect (rampStore false false 0) rampWorld))
  = 1 * 1 / 10.
Proof.
  apply (ride_start_speed _ (rampStore false false 0) 0.2 1 rampCurve rampWorld
           eq_refl eq_refl eq_refl).
  left. reflexivity.
Defined.

Lemma upVector_unit_normal_witness :
  Vector3.length (upVector (basis (Vector3.normalize (Vector3.mk 0 1 0)) 30)) = 1.
Proof.
  apply (upVector_unit_normal (Vector3.mk 0 1 0) 30).
  unfold Vector3.lengthSq. simpl. lra.
Defined.

Lemma camera_target_offset_witness :
  Vector3.distanceTo (targetCameraPos rampTilt (rampStore false false 0.5) rampCurve 0.5)
                     (getPoint rampCurve 0.5)
  = 1.5.
Proof.
  apply (camera_target_offset _ rampTilt (rampStore false false 0.5) rampCurve 0.5).
  unfold Vector3.lengthSq. simpl. lra.
Defined.

Lemma zero_tangent_no_offset_witness :
  targetCameraPos rampTilt (rampStore false false 0.5) pointCurve 0.5 = Vector3.mk 1 2 3.
Proof.
  apply (zero_tangent_no_offset _ rampTilt (rampStore false false 0.5) pointCurve 0.5).
  reflexivity.
Defined.

Lemma firstPeakT_positive_witness :
  exists r : R, firstPeakT rampTrack (rampStore false true 0) = Some r /\ 0.01 <= r <= 0.5.
Proof.
  destruct (firstPeakT_positive _ rampTrack (rampStore false true 0) rampCurve)
    as (r & Hr & Hrange & _).
  - simpl. lia.
  - reflexivity.
  - exists r. split; assumption.
Defined.

Lemma firstPeakT_first_crest_witness :
  firstPeakT hillTrack (rampStore false true 0) = Some (sample 1).
Proof.
  apply (firstPeakT_first_crest _ hillTrack (rampStore false true 0) hillCurve 0 1).
  - simpl. lia.
  - reflexivity.
  - lia.
  - lia.
  - lia.
  - intros k Hk. lia.
  - unfold climbs, sample. simpl. lra.
  - intros k Hk. assert (k = 0%nat) by lia. subst k.
    unfold height, sample. simpl. lra.
  - unfold height, sample. simpl. lra.
  - unfold sample. simpl. lra.
Defined.

Lemma no_curve_no_ride_witness :
  calls (frame rampTilt (rampStore false false 0.5) 0.2 1
           (curveEffect noTrack (rampStore false false 0.5) rampWorld))
  = [].
Proof.
  apply (no_curve_no_ride _ noTrack rampTilt (rampStore false false 0.5) 0.2 1 rampWorld).
  reflexivity.
Defined.

(** Two frames on the ramp that steer to the same pose. *)
Lemma smoothing_converges_witness :
  Vector3.distanceTo
    (previousCameraPos
       (refs (followAll rampTilt (rampStore false false 0.5) rampCurve [0.5; 0.5] rampWorld)))
    (targetCameraPos rampTilt (rampStore false false 0.5) rampCurve 0.5)
  = 0.75 ^ 2
    * Vector3.distanceTo Vector3.zero
        (targetCameraPos rampTilt (rampStore false false 0.5) rampCurve 0.5).
Proof.
  apply (smoothing_converges _ rampTilt (rampStore false false 0.5) rampCurve rampWorld)
    with (lookTarget := targetLookAt rampTilt (rampStore false false 0.5) rampCurve 0.5).
  intros p Hin. simpl in Hin.
  destruct Hin as [<- | [<- | []]]; split; reflexivity.
Defined.
